(** * The WebGL shader compiler of deeplearn.js

    [src/math/webgl/shader_compiler.ts] turns the description of the input
    and output tensors of a GPU kernel into the text of a GLSL fragment
    shader.  This development has two layers.

    - The first layer embeds the TypeScript functions themselves: they are
      functions from shape descriptions to [string]s (sequences of bytes,
      UTF-8 for the one character of the prefix that is not ASCII), and
      the single [throw] of each dispatcher is a [Throw] result.
    - The second layer (module [Glsl]) gives the meaning of the GLSL
      functions that those strings contain, under the name of the
      TypeScript function that emits them: [int] is [Z] with the
      truncating division of GLSL, [float] is [Q] (exact arithmetic) with
      one extra value for not-a-number.

    The theorems are stated over both layers. *)

From Stdlib Require Import ZArith QArith Qround Qabs Lqa Lia.
From Stdlib Require Import String Ascii List Bool DecimalString.
Import ListNotations.

Open Scope string_scope.
Open Scope Z_scope.

(** ** Data model *)

(** Modelled from the spec: the enumeration [TextureChannelPackingFormat] is
    declared in [../ndarray], which is not among the sources; its two
    members are the ones the compiler names ([R] and [RGBA_1_BY_4]). *)
Inductive TextureChannelPackingFormat : Set :=
  | R
  | RGBA_1_BY_4.

Record ShapeInfo : Set := {
  logicalShape : list Z;
  texShape : Z * Z;
  textureChannelPackingFormat : TextureChannelPackingFormat
}.

Record InputInfo : Set := {
  name : string;
  shapeInfo : ShapeInfo
}.

(** ** JavaScript primitives used by the compiler *)

(** [new Error(message)], and a computation that returns or throws. *)
Inductive Error : Set :=
  | MkError (message : string).

Inductive Result (A : Type) : Type :=
  | Ok (a : A)
  | Throw (e : Error).

Arguments Ok {A} a.
Arguments Throw {A} e.

Definition bind {A B : Type} (m : Result A) (k : A -> Result B) : Result B :=
  match m with
  | Ok a => k a
  | Throw e => Throw e
  end.

Notation "x <- m ;; k" := (bind m (fun x => k))
  (at level 61, m at next level, right associativity).

(** [xs.map(f)] for an [f] that may throw: elements are visited from left to
    right and the first exception aborts the traversal. *)
Fixpoint mapM {A B : Type} (f : A -> Result B) (xs : list A) : Result (list B) :=
  match xs with
  | [] => Ok []
  | x :: xs' =>
      y <- f x ;;
      ys <- mapM f xs' ;;
      Ok (y :: ys)
  end.

(** [xs.join(sep)] on an array of strings. *)
Fixpoint join (sep : string) (xs : list string) : string :=
  match xs with
  | [] => ""
  | [x] => x
  | x :: xs' => x ++ sep ++ join sep xs'
  end.

(** The line break ['\n']. *)
Definition LF : string := String (ascii_of_nat 10) "".

(** Interpolation [${n}] of an integral number in a template literal. *)
Definition numberToString (n : Z) : string :=
  NilEmpty.string_of_int (Z.to_int n).

(** [c.toUpperCase()] on one character of an identifier.  Identifiers are
    names of GLSL uniforms, hence ASCII: the letters [a]-[z] are moved to
    [A]-[Z] and every other character is left as it is. *)
Definition toUpperCase (c : ascii) : ascii :=
  let n := nat_of_ascii c in
  if (97 <=? n)%nat && (n <=? 122)%nat then ascii_of_nat (n - 32) else c.

(** [texName.charAt(0).toUpperCase() + texName.slice(1)]. *)
Definition capitalize (texName : string) : string :=
  match texName with
  | EmptyString => ""
  | String c rest => String (toUpperCase c) "" ++ rest
  end.

(** Modelled from the spec: [util.arraysEqual] is declared in [../../util],
    which is not among the sources; two shapes are identical when they have
    the same length and the same entries. *)
Fixpoint arraysEqual (n1 n2 : list Z) : bool :=
  match n1, n2 with
  | [], [] => true
  | a :: n1', b :: n2' => (a =? b) && arraysEqual n1' n2'
  | _, _ => false
  end.

(** Modelled from the spec: [util.sizeFromShape] is declared in
    [../../util], which is not among the sources; the size of a shape is
    the product of its entries, 1 for the empty shape. *)
Definition sizeFromShape (shape : list Z) : Z :=
  fold_left Z.mul shape 1.

(** A pair [[a, b]] seen as the array it is in JavaScript. *)
Definition arrayOfPair (p : Z * Z) : list Z := [fst p; snd p].

(** ** The compiler: fixed fragments *)

Definition SAMPLE_1D_SNIPPET : string := ("
vec2 UVfrom1D(int texNumR, int texNumC, int index) {
  int texR = index / texNumC;
  int texC = index - texR * texNumC;
  return (vec2(texC, texR) + halfCR) / vec2(texNumC, texNumR);
}
").

Definition SAMPLE_2D_SNIPPET : string := ("
vec2 UVfrom2D(int texNumR, int texNumC, int numC, int row, int col) {
  int index = row * numC + col;
  int texR = index / texNumC;
  int texC = index - texR * texNumC;
  return (vec2(texC, texR) + halfCR) / vec2(texNumC, texNumR);
}
").

Definition SAMPLE_3D_SNIPPET : string := ("
vec2 UVfrom3D(int texNumR, int texNumC, int stride0,
    int stride1, int row, int col, int depth) {
  // Explicitly use integer operations as dot() only works on floats.
  int index = row * stride0 + col * stride1 + depth;
  int texR = index / texNumC;
  int texC = index - texR * texNumC;
  return (vec2(texC, texR) + halfCR) / vec2(texNumC, texNumR);
}
").

Definition SAMPLE_4D_SNIPPET : string := ("
vec2 UVfrom4D(int texNumR, int texNumC, int stride0,
    int stride1, int stride2, int row, int col, int depth,
    int depth2) {
  // Explicitly use integer operations as dot() only works on floats.
  int index = row * stride0 + col * stride1 + depth * stride2 + depth2;
  int texR = index / texNumC;
  int texC = index - texR * texNumC;
  return (vec2(texC, texR) + halfCR) / vec2(texNumC, texNumR);
}
").

Definition SINGLE_CHANNEL_R_SET_OUTPUT_SNIPPET : string := ("
void setOutput(float val) {
  gl_FragColor = vec4(val, 0, 0, 0);
}
").

Definition FLOAT_TEXTURE_SAMPLE_SNIPPET : string := ("
  float sample(sampler2D texture, vec2 uv) {
    return texture2D(texture, uv).r;
  }
").

Definition FLOAT_TEXTURE_SETOUTPUT_SNIPPET : string := ("
  void setOutput(float val) {
    gl_FragColor = vec4(val, 0, 0, 0);
  }
").

Definition SHADER_PREFIX : string := ("
  precision highp float;
  precision highp int;
  varying vec2 resultUV;
  const vec2 halfCR = vec2(0.5, 0.5);

  bool isNaN(float val) {
    return val == val ? false : true;
  }

  bool hasNaN(vec4 values) {
    return any(notEqual(values, values));
  }

  float getNaN(vec4 values) {
    return dot(vec4(1), values);
  }

  int round(float value) {
    return int(floor(value + 0.5));
  }

  const vec2 randomConst = vec2(
    23.14069263277926, // e^pi (Gelfond's constant)
     2.665144142690225 // 2^sqrt(2) (Gelfond–Schneider constant)
  );

  float random(float seed) {
      return fract(cos(dot(resultUV * seed, randomConst)) * 12345.6789);
  }

  " ++ SAMPLE_1D_SNIPPET ++ "
  " ++ SAMPLE_2D_SNIPPET ++ "
  " ++ SAMPLE_3D_SNIPPET ++ "
  " ++ SAMPLE_4D_SNIPPET ++ "
").

(** ** The compiler: output-coordinate decoders *)

Definition getOutput1DCoords (shape : Z) (texShape : Z * Z) : string :=
  if fst texShape =? 1 then ("
      int getOutputCoords() {
        return int(resultUV.x * " ++ numberToString (snd texShape) ++ ".0);
      }
    ")
  else if snd texShape =? 1 then ("
      int getOutputCoords() {
        return int(resultUV.y * " ++ numberToString (fst texShape) ++ ".0);
      }
    ")
  else ("
    int getOutputCoords() {
      ivec2 resTexRC = ivec2(resultUV.yx *
                             vec2(" ++ numberToString (fst texShape) ++ ", " ++ numberToString (snd texShape) ++ "));
      return resTexRC.x * " ++ numberToString (snd texShape) ++ " + resTexRC.y;
    }
  ").

Definition getOutput3DCoords (shape : Z * Z * Z) (texShape : Z * Z) : string :=
  let '(_, shape1, shape2) := shape in
  let stride0 := shape1 * shape2 in
  let stride1 := shape2 in
  ("
    ivec3 getOutputCoords() {
      ivec2 resTexRC = ivec2(resultUV.yx *
                             vec2(" ++ numberToString (fst texShape) ++ ", " ++ numberToString (snd texShape) ++ "));
      int index = resTexRC.x * " ++ numberToString (snd texShape) ++ " + resTexRC.y;
      int r = index / " ++ numberToString stride0 ++ ";
      index -= r * " ++ numberToString stride0 ++ ";
      int c = index / " ++ numberToString stride1 ++ ";
      int d = index - c * " ++ numberToString stride1 ++ ";
      return ivec3(r, c, d);
    }
  ").

Definition getOutput4DCoords (shape : Z * Z * Z * Z) (texShape : Z * Z)
  : string :=
  let '(_, shape1, shape2, shape3) := shape in
  let stride2 := shape3 in
  let stride1 := shape2 * stride2 in
  let stride0 := shape1 * stride1 in
  ("
    ivec4 getOutputCoords() {
      ivec2 resTexRC = ivec2(resultUV.yx *
        vec2(" ++ numberToString (fst texShape) ++ ", " ++ numberToString (snd texShape) ++ "));
      int index = resTexRC.x * " ++ numberToString (snd texShape) ++ " + resTexRC.y;

      int r = index / " ++ numberToString stride0 ++ ";
      index -= r * " ++ numberToString stride0 ++ ";

      int c = index / " ++ numberToString stride1 ++ ";
      index -= c * " ++ numberToString stride1 ++ ";

      int d = index / " ++ numberToString stride2 ++ ";
      int d2 = index - d * " ++ numberToString stride2 ++ ";

      return ivec4(r, c, d, d2);
    }
  ").

Definition getOutput2DCoords (shape : Z * Z) (texShape : Z * Z) : string :=
  if arraysEqual (arrayOfPair shape) (arrayOfPair texShape) then ("
      ivec2 getOutputCoords() {
        return ivec2(resultUV.yx * vec2(" ++ numberToString (fst texShape) ++ ", " ++ numberToString (snd texShape) ++ "));
      }
    ")
  else if snd shape =? 1 then ("
      ivec2 getOutputCoords() {
        ivec2 resTexRC = ivec2(resultUV.yx *
                               vec2(" ++ numberToString (fst texShape) ++ ", " ++ numberToString (snd texShape) ++ "));
        int index = resTexRC.x * " ++ numberToString (snd texShape) ++ " + resTexRC.y;
        return ivec2(index, 0);
      }
    ")
  else if fst shape =? 1 then ("
      ivec2 getOutputCoords() {
        ivec2 resTexRC = ivec2(resultUV.yx *
                               vec2(" ++ numberToString (fst texShape) ++ ", " ++ numberToString (snd texShape) ++ "));
        int index = resTexRC.x * " ++ numberToString (snd texShape) ++ " + resTexRC.y;
        return ivec2(0, index);
      }
    ")
  else ("
    ivec2 getOutputCoords() {
      ivec2 resTexRC = ivec2(resultUV.yx *
                             vec2(" ++ numberToString (fst texShape) ++ ", " ++ numberToString (snd texShape) ++ "));
      int index = resTexRC.x * " ++ numberToString (snd texShape) ++ " + resTexRC.y;
      int r = index / " ++ numberToString (snd shape) ++ ";
      int c = index - r * " ++ numberToString (snd shape) ++ ";
      return ivec2(r, c);
    }
  ").

(** ** The compiler: samplers *)

Definition getSamplerScalar (texName : string) : string :=
  let funcName := "get" ++ capitalize texName in
  ("
    float " ++ funcName ++ "() {
      return sample(" ++ texName ++ ", halfCR);
    }
  ").

Definition getSampler1D (texName : string) (texShape : Z * Z) : string :=
  let funcName := "get" ++ capitalize texName in
  let tR := fst texShape in
  let tC := snd texShape in
  if (fst texShape =? 1) && (snd texShape =? 1) then ("
      float " ++ funcName ++ "(int index) {
        return sample(" ++ texName ++ ", halfCR);
      }
    ")
  else if snd texShape =? 1 then ("
      float " ++ funcName ++ "(int index) {
        vec2 uv = vec2(0.5, (float(index) + 0.5) / " ++ numberToString tR ++ ".0);
        return sample(" ++ texName ++ ", uv);
      }
    ")
  else if fst texShape =? 1 then ("
      float " ++ funcName ++ "(int index) {
        vec2 uv = vec2((float(index) + 0.5) / " ++ numberToString tC ++ ".0, 0.5);
        return sample(" ++ texName ++ ", uv);
      }
    ")
  else ("
    float " ++ funcName ++ "(int index) {
      vec2 uv = UVfrom1D(" ++ numberToString tR ++ ", " ++ numberToString tC ++ ", index);
      return sample(" ++ texName ++ ", uv);
    }
  ").

Definition getSampler3D (texName : string) (shape : Z * Z * Z)
  (texShape : Z * Z) : string :=
  let funcName := "get" ++ capitalize texName in
  let tR := fst texShape in
  let tC := snd texShape in
  let '(_, shape1, shape2) := shape in
  let stride0 := shape1 * shape2 in
  let stride1 := shape2 in
  if tC =? stride0 then ("
      float " ++ funcName ++ "(int row, int col, int depth) {
        int texR = row;
        int texC = col * " ++ numberToString stride1 ++ " + depth;
        vec2 uv = (vec2(texC, texR) + halfCR) / vec2(" ++ numberToString tC ++ ".0, " ++ numberToString tR ++ ".0);
        return sample(" ++ texName ++ ", uv);
      }
    ")
  else ("
    float " ++ funcName ++ "(int row, int col, int depth) {
      vec2 uv = UVfrom3D(" ++ numberToString tR ++ ", " ++ numberToString tC ++ ", " ++ numberToString stride0 ++ ", " ++ numberToString stride1 ++ ", row, col, depth);
      return sample(" ++ texName ++ ", uv);
    }
  ").

Definition getSampler4D (texName : string) (shape : Z * Z * Z * Z)
  (texShape : Z * Z) : string :=
  let funcName := "get" ++ capitalize texName in
  let tR := fst texShape in
  let tC := snd texShape in
  let '(_, shape1, shape2, shape3) := shape in
  let stride2 := shape3 in
  let stride1 := shape2 * stride2 in
  let stride0 := shape1 * stride1 in
  if tC =? stride0 then ("
      float " ++ funcName ++ "(int row, int col, int depth, int depth2) {
        int texR = row;
        int texC = col * " ++ numberToString stride1 ++ " + depth * " ++ numberToString stride2 ++ " + depth2;
        vec2 uv = (vec2(texC, texR) + halfCR) / vec2(" ++ numberToString tC ++ ".0, " ++ numberToString tR ++ ".0);
        return sample(" ++ texName ++ ", uv);
      }
    ")
  else ("
    float " ++ funcName ++ "(int row, int col, int depth, int depth2) {
      vec2 uv = UVfrom4D(" ++ numberToString tR ++ ", " ++ numberToString tC ++ ", " ++ numberToString stride0 ++ ", " ++ numberToString stride1 ++ ", " ++ numberToString stride2 ++ ",
          row, col, depth, depth2);
      return sample(" ++ texName ++ ", uv);
    }
  ").

Definition getSampler2D (texName : string) (shape : Z * Z) (texShape : Z * Z)
  : string :=
  let funcName := "get" ++ capitalize texName in
  let tR := fst texShape in
  let tC := snd texShape in
  if arraysEqual (arrayOfPair shape) (arrayOfPair texShape) then ("
      float " ++ funcName ++ "(int row, int col) {
        vec2 uv = (vec2(col, row) + halfCR) / vec2(" ++ numberToString tC ++ ".0, " ++ numberToString tR ++ ".0);
        return sample(" ++ texName ++ ", uv);
      }
    ")
  else if tC =? 1 then
    if fst shape =? 1 then ("
        float " ++ funcName ++ "(int row, int col) {
          vec2 uv = vec2(0.5, (float(col) + 0.5) / " ++ numberToString tR ++ ".0);
          return sample(" ++ texName ++ ", uv);
        }
      ")
    else if snd shape =? 1 then ("
        float " ++ funcName ++ "(int row, int col) {
          vec2 uv = vec2(0.5, (float(row) + 0.5) / " ++ numberToString tR ++ ".0);
          return sample(" ++ texName ++ ", uv);
        }
      ")
    else ("
      float " ++ funcName ++ "(int row, int col) {
        int index = row * " ++ numberToString (snd shape) ++ " + col;
        vec2 uv = vec2(0.5, (float(index) + 0.5) / " ++ numberToString tR ++ ".0);
        return sample(" ++ texName ++ ", uv);
      }
    ")
  else if tR =? 1 then ("
      float " ++ funcName ++ "(int row, int col) {
        int index = row * " ++ numberToString (snd shape) ++ " + col;
        vec2 uv = vec2((float(index) + 0.5) / " ++ numberToString tC ++ ".0, 0.5);
        return sample(" ++ texName ++ ", uv);
      }
    ")
  else ("
    float " ++ funcName ++ "(int row, int col) {
      vec2 uv = UVfrom2D(" ++ numberToString tR ++ ", " ++ numberToString tC ++ ", " ++ numberToString (snd shape) ++ ", row, col);
      return sample(" ++ texName ++ ", uv);
    }
  ").

Definition getSamplerFlat (texName : string) (texShape : Z * Z) : string :=
  let funcName := "get" ++ capitalize texName ++ "Flat" in
  let tNumR := fst texShape in
  let tNumC := snd texShape in
  if (tNumC =? 1) && (tNumR =? 1) then ("
      float " ++ funcName ++ "(int index) {
        return sample(" ++ texName ++ ", halfCR);
      }
    ")
  else if tNumC =? 1 then ("
      float " ++ funcName ++ "(int index) {
        vec2 uv = vec2(0.5, (float(index) + 0.5) / " ++ numberToString tNumR ++ ".0);
        return sample(" ++ texName ++ ", uv);
      }
    ")
  else if tNumR =? 1 then ("
      float " ++ funcName ++ "(int index) {
        vec2 uv = vec2((float(index) + 0.5) / " ++ numberToString tNumC ++ ".0, 0.5);
        return sample(" ++ texName ++ ", uv);
      }
    ")
  else ("
    float " ++ funcName ++ "(int index) {
      int texR = index / " ++ numberToString tNumC ++ ";
      int texC = index - texR * " ++ numberToString tNumC ++ ";
      vec2 uv = (vec2(texC, texR) + halfCR) / vec2(" ++ numberToString tNumC ++ ".0, " ++ numberToString tNumR ++ ".0);
      return sample(" ++ texName ++ ", uv);
    }
  ").

Definition getSamplerAtOutputCoords (texName : string)
  (inTexShape outTexShape : Z * Z) (broadcast : bool) : string :=
  let funcName := "get" ++ capitalize texName ++ "AtOutCoords" in
  if arraysEqual (arrayOfPair inTexShape) (arrayOfPair outTexShape)
  then ("
      float " ++ funcName ++ "() {
        return sample(" ++ texName ++ ", resultUV);
      }
    ")
  else
    let inSize := sizeFromShape (arrayOfPair inTexShape) in
    let broadcastSnippet := "" in
    let broadcastSnippet :=
      if broadcast then ("
      int mainPart = index / " ++ numberToString inSize ++ ";
      index -= mainPart * " ++ numberToString inSize ++ ";
    ") else broadcastSnippet in
    ("
    float " ++ funcName ++ "() {
      ivec2 resTexRC = ivec2(resultUV.yx *
                             vec2(" ++ numberToString (fst outTexShape) ++ ", " ++ numberToString (snd outTexShape) ++ "));
      int index = resTexRC.x * " ++ numberToString (snd outTexShape) ++ " + resTexRC.y;
      " ++ broadcastSnippet ++ "
      int texR = index / " ++ numberToString (snd inTexShape) ++ ";
      int texC = index - texR * " ++ numberToString (snd inTexShape) ++ ";
      vec2 uv = (vec2(texC, texR) + halfCR) /
                 vec2(" ++ numberToString (snd inTexShape) ++ ".0, " ++ numberToString (fst inTexShape) ++ ".0);
      return sample(" ++ texName ++ ", uv);
    }
  ").

(** ** The compiler: dispatch and assembly *)

Section Compiler.

(** The capability flag [ENV.get('WEBGL_FLOAT_TEXTURE_ENABLED')] and the
    constants of [tex_util], whose declarations are not among the
    sources, are parameters of the compiler. *)
Variable WEBGL_FLOAT_TEXTURE_ENABLED : bool.
Variables FLOAT_MIN FLOAT_MAX BYTE_NAN_VALUE : Z.

Definition UNSIGNED_BYTE_TEXTURE_SAMPLE_SNIPPET : string := ("
  uniform float NaN;

  const vec4 floatDeltas = vec4(
      1.0,
      1.0 / 255.0,
      1.0 / (255.0 * 255.0),
      1.0 / (255.0 * 255.0 * 255.0)
  );
  const float minValue = " ++ numberToString FLOAT_MIN ++ ".0;
  const float maxValue = " ++ numberToString FLOAT_MAX ++ ".0;
  const float range = (maxValue - minValue) / 255.0;
  const vec2 dotRange = vec2(1.0, range);

  float sample(sampler2D texture, vec2 uv) {
    vec4 sampleValue = texture2D(texture, uv);
    if (all(equal(sampleValue, vec4(" ++ numberToString BYTE_NAN_VALUE ++ ")))) {
      return NaN;
    }

    vec4 encValue = floor(sampleValue * 255.0 + 0.5);
    float decodedValue = dot(encValue, floatDeltas);
    return dot(vec2(minValue, decodedValue), dotRange);
  }
").

Definition UNSIGNED_BYTE_TEXTURE_SETOUTPUT_SNIPPET : string := ("
  const vec4 floatPowers = vec4(
    1.0,
    255.0,
    255.0 * 255.0,
    255.0 * 255.0 * 255.0
  );
  const vec2 recipRange = vec2(1.0/range);
  const vec2 recipRange255 = vec2(1.0/(maxValue - minValue));

  void setOutput(float decodedValue) {
    if (isNaN(decodedValue)) {
      gl_FragColor = vec4(" ++ numberToString BYTE_NAN_VALUE ++ ");
      return;
    }

    float a = dot(vec2(decodedValue, -minValue), recipRange);
    float b = fract(a) * 255.0;
    float c = fract(b) * 255.0;
    float d = fract(c) * 255.0;
    gl_FragColor = floor(vec4(a, b, c, d)) / 255.0;

    // TODO(dsmilkov): Version above gets better accuracy but probably slower
    // than the version below. Benchmark to determine if the accuracy is worth
    // the cost.

    // float normValue = dot(vec2(decodedValue, -minValue), recipRange255);
    // vec4 f = normValue * floatPowers;
    // gl_FragColor = floor(fract(f) * 255.0) / 255.0;
  }
").

Definition getSampleSnippet : string :=
  if WEBGL_FLOAT_TEXTURE_ENABLED
  then FLOAT_TEXTURE_SAMPLE_SNIPPET
  else UNSIGNED_BYTE_TEXTURE_SAMPLE_SNIPPET.

Definition getSetOutputSnippet (outputShapeInfo : ShapeInfo) : string :=
  if WEBGL_FLOAT_TEXTURE_ENABLED
  then FLOAT_TEXTURE_SETOUTPUT_SNIPPET
  else UNSIGNED_BYTE_TEXTURE_SETOUTPUT_SNIPPET.

Definition getInputSamplingSnippet (inInfo : InputInfo)
  (outShapeInfo : ShapeInfo) (broadcast : bool) : Result string :=
  let shape := logicalShape (shapeInfo inInfo) in
  let outTexShape := texShape outShapeInfo in
  let texShape := texShape (shapeInfo inInfo) in
  let res := "" in
  res <-
    match shape with
    | [] => Ok (res ++ getSamplerScalar (name inInfo))
    | [_] => Ok (res ++ getSampler1D (name inInfo) texShape)
    | [s0; s1] => Ok (res ++ getSampler2D (name inInfo) (s0, s1) texShape)
    | [s0; s1; s2] =>
        Ok (res ++ getSampler3D (name inInfo) (s0, s1, s2) texShape)
    | [s0; s1; s2; s3] =>
        Ok (res ++ getSampler4D (name inInfo) (s0, s1, s2, s3) texShape)
    | _ =>
        Throw (MkError
                 (numberToString (Z.of_nat (List.length shape))
                  ++ "-D input sampling" ++ " is not yet supported"))
    end ;;
  let res :=
    if broadcast
       || arraysEqual (logicalShape (shapeInfo inInfo))
                      (logicalShape outShapeInfo)
    then res ++ getSamplerAtOutputCoords (name inInfo) texShape outTexShape
                  broadcast
    else res in
  let res := res ++ getSamplerFlat (name inInfo) texShape in
  Ok res.

Definition getOutputSamplingSnippet (outputShapeInfo : ShapeInfo)
  : Result string :=
  match logicalShape outputShapeInfo with
  | [] => Ok ""
  | [s0] => Ok (getOutput1DCoords s0 (texShape outputShapeInfo))
  | [s0; s1] => Ok (getOutput2DCoords (s0, s1) (texShape outputShapeInfo))
  | [s0; s1; s2] =>
      Ok (getOutput3DCoords (s0, s1, s2) (texShape outputShapeInfo))
  | [s0; s1; s2; s3] =>
      Ok (getOutput4DCoords (s0, s1, s2, s3) (texShape outputShapeInfo))
  | _ =>
      Throw (MkError
               (numberToString
                  (Z.of_nat (List.length (logicalShape outputShapeInfo)))
                ++ "-D output sampling is not yet supported"))
  end.

Definition makeShader (inputsInfo : list InputInfo)
  (outputShapeInfo : ShapeInfo) (userCode : string) (broadcast : bool)
  : Result string :=
  let sampleSnippet := getSampleSnippet in
  let inputPrefixSnippet :=
    join LF (map (fun x => ("uniform sampler2D " ++ name x ++ ";")) inputsInfo) in
  inputSamplingSnippets <-
    mapM (fun x => getInputSamplingSnippet x outputShapeInfo broadcast)
         inputsInfo ;;
  let inputSamplingSnippet := join LF inputSamplingSnippets in
  outputSamplingSnippet <- getOutputSamplingSnippet outputShapeInfo ;;
  let setOutputSnippet := getSetOutputSnippet outputShapeInfo in
  let source :=
    join LF
      [SHADER_PREFIX; sampleSnippet; setOutputSnippet; inputPrefixSnippet;
       inputSamplingSnippet; outputSamplingSnippet; userCode] in
  Ok source.

End Compiler.

(** ** Meaning of the generated GLSL *)

Module Glsl.

(** [int] values are integers and [/] on them drops the fractional part
    of the quotient; overflow of the GPU's integers is not modelled.
    [float] values are rationals, with exact arithmetic. *)
Definition vec2 : Set := (Q * Q)%type.
Definition ivec2 : Set := (Z * Z)%type.
Definition ivec3 : Set := (Z * Z * Z)%type.
Definition ivec4 : Set := (Z * Z * Z * Z)%type.
Definition vec4 : Set := (Q * Q * Q * Q)%type.

Inductive float : Set :=
  | Num (q : Q)
  | NaN.

Definition idiv (a b : Z) : Z := Z.quot a b.

(** The constructors [float(n)] and [int(x)]. *)
Definition float_of_int (n : Z) : Q := inject_Z n.

Definition int_of_float (x : Q) : Z :=
  if Qle_bool 0 x then Qfloor x else (- Qfloor (- x))%Z.

(** The built-ins [floor] and [fract]. *)
Definition floor (x : Q) : Q := inject_Z (Qfloor x).
Definition fract (x : Q) : Q := (x - floor x)%Q.

(** [const vec2 halfCR = vec2(0.5, 0.5);] *)
Definition halfCR : vec2 := (1 # 2, 1 # 2)%Q.

(** [(vec2(texC, texR) + halfCR) / vec2(texNumC, texNumR)], the last line
    of every address computation: the centre of texel [(texR, texC)] of a
    texture with [texNumR] rows and [texNumC] columns. *)
Definition texelCenter (texNumR texNumC : Z) (texRC : Z * Z) : vec2 :=
  let '(texR, texC) := texRC in
  (((float_of_int texC + fst halfCR) / float_of_int texNumC)%Q,
   ((float_of_int texR + snd halfCR) / float_of_int texNumR)%Q).

(** [ivec2(resultUV.yx * vec2(texShape[0], texShape[1]))], the first line
    of every function that reads the position of the current fragment. *)
Definition resTexRC (texShape : Z * Z) (resultUV : vec2) : ivec2 :=
  (int_of_float (snd resultUV * float_of_int (fst texShape))%Q,
   int_of_float (fst resultUV * float_of_int (snd texShape))%Q).

(** *** Helpers of the shader prefix *)

Definition UVfrom1D (texNumR texNumC index : Z) : vec2 :=
  let texR := idiv index texNumC in
  let texC := index - texR * texNumC in
  texelCenter texNumR texNumC (texR, texC).

(** The first statement of [UVfrom2D], [UVfrom3D] and [UVfrom4D]. *)
Definition index2D (numC row col : Z) : Z :=
  row * numC + col.

Definition index3D (stride0 stride1 row col depth : Z) : Z :=
  row * stride0 + col * stride1 + depth.

Definition index4D (stride0 stride1 stride2 row col depth depth2 : Z) : Z :=
  row * stride0 + col * stride1 + depth * stride2 + depth2.

Definition UVfrom2D (texNumR texNumC numC row col : Z) : vec2 :=
  let index := index2D numC row col in
  let texR := idiv index texNumC in
  let texC := index - texR * texNumC in
  texelCenter texNumR texNumC (texR, texC).

Definition UVfrom3D (texNumR texNumC stride0 stride1 row col depth : Z)
  : vec2 :=
  let index := index3D stride0 stride1 row col depth in
  let texR := idiv index texNumC in
  let texC := index - texR * texNumC in
  texelCenter texNumR texNumC (texR, texC).

Definition UVfrom4D
  (texNumR texNumC stride0 stride1 stride2 row col depth depth2 : Z)
  : vec2 :=
  let index := index4D stride0 stride1 stride2 row col depth depth2 in
  let texR := idiv index texNumC in
  let texC := index - texR * texNumC in
  texelCenter texNumR texNumC (texR, texC).

(** *** Samplers: the coordinate handed to [sample] *)

(** Body emitted by [getSampler3D] for a tensor of shape [shape] kept in a
    texture of shape [texShape]. *)
Definition getSampler3D (shape : Z * Z * Z) (texShape : Z * Z)
  (row col depth : Z) : vec2 :=
  let tR := fst texShape in
  let tC := snd texShape in
  let '(_, shape1, shape2) := shape in
  let stride0 := shape1 * shape2 in
  let stride1 := shape2 in
  if tC =? stride0 then
    let texR := row in
    let texC := col * stride1 + depth in
    texelCenter tR tC (texR, texC)
  else UVfrom3D tR tC stride0 stride1 row col depth.

(** Body emitted by [getSampler4D]. *)
Definition getSampler4D (shape : Z * Z * Z * Z) (texShape : Z * Z)
  (row col depth depth2 : Z) : vec2 :=
  let tR := fst texShape in
  let tC := snd texShape in
  let '(_, shape1, shape2, shape3) := shape in
  let stride2 := shape3 in
  let stride1 := shape2 * stride2 in
  let stride0 := shape1 * stride1 in
  if tC =? stride0 then
    let texR := row in
    let texC := col * stride1 + depth * stride2 + depth2 in
    texelCenter tR tC (texR, texC)
  else UVfrom4D tR tC stride0 stride1 stride2 row col depth depth2.

(** Body emitted by [getSamplerAtOutputCoords]; [resultUV] is the
    coordinate of the current fragment. *)
Definition getSamplerAtOutputCoords (inTexShape outTexShape : Z * Z)
  (broadcast : bool) (resultUV : vec2) : vec2 :=
  if arraysEqual (arrayOfPair inTexShape) (arrayOfPair outTexShape)
  then resultUV
  else
    let inSize := sizeFromShape (arrayOfPair inTexShape) in
    let '(x, y) := resTexRC outTexShape resultUV in
    let index := x * snd outTexShape + y in
    let index :=
      if broadcast then
        let mainPart := idiv index inSize in
        index - mainPart * inSize
      else index in
    let texR := idiv index (snd inTexShape) in
    let texC := index - texR * snd inTexShape in
    texelCenter (fst inTexShape) (snd inTexShape) (texR, texC).

(** Body emitted by [getSampler1D] for a texture of shape [texShape]. *)
Definition getSampler1D (texShape : Z * Z) (index : Z) : vec2 :=
  let tR := fst texShape in
  let tC := snd texShape in
  if (fst texShape =? 1) && (snd texShape =? 1) then halfCR
  else if snd texShape =? 1 then
    ((1 # 2)%Q, ((float_of_int index + (1 # 2)) / float_of_int tR)%Q)
  else if fst texShape =? 1 then
    (((float_of_int index + (1 # 2)) / float_of_int tC)%Q, (1 # 2)%Q)
  else UVfrom1D tR tC index.

(** Body emitted by [getSampler2D]. *)
Definition getSampler2D (shape : Z * Z) (texShape : Z * Z) (row col : Z)
  : vec2 :=
  let tR := fst texShape in
  let tC := snd texShape in
  if arraysEqual (arrayOfPair shape) (arrayOfPair texShape) then
    (((float_of_int col + fst halfCR) / float_of_int tC)%Q,
     ((float_of_int row + snd halfCR) / float_of_int tR)%Q)
  else if tC =? 1 then
    if fst shape =? 1 then
      ((1 # 2)%Q, ((float_of_int col + (1 # 2)) / float_of_int tR)%Q)
    else if snd shape =? 1 then
      ((1 # 2)%Q, ((float_of_int row + (1 # 2)) / float_of_int tR)%Q)
    else
      let index := row * snd shape + col in
      ((1 # 2)%Q, ((float_of_int index + (1 # 2)) / float_of_int tR)%Q)
  else if tR =? 1 then
    let index := row * snd shape + col in
    (((float_of_int index + (1 # 2)) / float_of_int tC)%Q, (1 # 2)%Q)
  else UVfrom2D tR tC (snd shape) row col.

(** Body emitted by [getSamplerFlat]. *)
Definition getSamplerFlat (texShape : Z * Z) (index : Z) : vec2 :=
  let tNumR := fst texShape in
  let tNumC := snd texShape in
  if (tNumC =? 1) && (tNumR =? 1) then halfCR
  else if tNumC =? 1 then
    ((1 # 2)%Q, ((float_of_int index + (1 # 2)) / float_of_int tNumR)%Q)
  else if tNumR =? 1 then
    (((float_of_int index + (1 # 2)) / float_of_int tNumC)%Q, (1 # 2)%Q)
  else
    let texR := idiv index tNumC in
    let texC := index - texR * tNumC in
    texelCenter tNumR tNumC (texR, texC).

(** *** Output-coordinate decoders *)

Definition getOutput1DCoords (shape : Z) (texShape : Z * Z)
  (resultUV : vec2) : Z :=
  if fst texShape =? 1 then
    int_of_float (fst resultUV * float_of_int (snd texShape))%Q
  else if snd texShape =? 1 then
    int_of_float (snd resultUV * float_of_int (fst texShape))%Q
  else
    let '(x, y) := resTexRC texShape resultUV in
    x * snd texShape + y.

Definition getOutput3DCoords (shape : Z * Z * Z) (texShape : Z * Z)
  (resultUV : vec2) : ivec3 :=
  let '(_, shape1, shape2) := shape in
  let stride0 := shape1 * shape2 in
  let stride1 := shape2 in
  let '(x, y) := resTexRC texShape resultUV in
  let index := x * snd texShape + y in
  let r := idiv index stride0 in
  let index := index - r * stride0 in
  let c := idiv index stride1 in
  let d := index - c * stride1 in
  (r, c, d).

Definition getOutput4DCoords (shape : Z * Z * Z * Z) (texShape : Z * Z)
  (resultUV : vec2) : ivec4 :=
  let '(_, shape1, shape2, shape3) := shape in
  let stride2 := shape3 in
  let stride1 := shape2 * stride2 in
  let stride0 := shape1 * stride1 in
  let '(x, y) := resTexRC texShape resultUV in
  let index := x * snd texShape + y in
  let r := idiv index stride0 in
  let index := index - r * stride0 in
  let c := idiv index stride1 in
  let index := index - c * stride1 in
  let d := idiv index stride2 in
  let d2 := index - d * stride2 in
  (r, c, d, d2).

Definition getOutput2DCoords (shape : Z * Z) (texShape : Z * Z)
  (resultUV : vec2) : ivec2 :=
  if arraysEqual (arrayOfPair shape) (arrayOfPair texShape) then
    resTexRC texShape resultUV
  else if snd shape =? 1 then
    let '(x, y) := resTexRC texShape resultUV in
    let index := x * snd texShape + y in
    (index, 0)
  else if fst shape =? 1 then
    let '(x, y) := resTexRC texShape resultUV in
    let index := x * snd texShape + y in
    (0, index)
  else
    let '(x, y) := resTexRC texShape resultUV in
    let index := x * snd texShape + y in
    let r := idiv index (snd shape) in
    let c := index - r * snd shape in
    (r, c).

(** *** The codec of unsigned-byte textures *)

Section ByteCodec.

(** The constants of [tex_util] that the templates interpolate, each
    followed by [.0] or wrapped in [vec4(...)]: integers read as floats. *)
Variables FLOAT_MIN FLOAT_MAX BYTE_NAN_VALUE : Z.

(** A texture is what [texture2D] reads from it. *)
Definition sampler2D : Type := vec2 -> vec4.
Definition texture2D (texture : sampler2D) (uv : vec2) : vec4 :=
  texture uv.

Definition vec4_of (x : Q) : vec4 := (x, x, x, x).

Definition dot2 (u v : vec2) : Q :=
  (fst u * fst v + snd u * snd v)%Q.

Definition dot4 (u v : vec4) : Q :=
  let '(u0, u1, u2, u3) := u in
  let '(v0, v1, v2, v3) := v in
  (u0 * v0 + u1 * v1 + u2 * v2 + u3 * v3)%Q.

Definition map4 (f : Q -> Q) (u : vec4) : vec4 :=
  let '(u0, u1, u2, u3) := u in (f u0, f u1, f u2, f u3).

(** [all(equal(u, v))]. *)
Definition all_equal (u v : vec4) : bool :=
  let '(u0, u1, u2, u3) := u in
  let '(v0, v1, v2, v3) := v in
  Qeq_bool u0 v0 && Qeq_bool u1 v1 && Qeq_bool u2 v2 && Qeq_bool u3 v3.

Definition floatDeltas : vec4 :=
  (1, 1 / 255, 1 / (255 * 255), 1 / (255 * 255 * 255))%Q.
Definition minValue : Q := inject_Z FLOAT_MIN.
Definition maxValue : Q := inject_Z FLOAT_MAX.
Definition range : Q := ((maxValue - minValue) / 255)%Q.
Definition dotRange : vec2 := (1, range)%Q.

(** The pattern of a texel that holds not-a-number. *)
Definition nanPattern : vec4 := vec4_of (inject_Z BYTE_NAN_VALUE).

(** [sample], the decoder; the uniform [NaN] holds not-a-number. *)
Definition sample (texture : sampler2D) (uv : vec2) : float :=
  let sampleValue := texture2D texture uv in
  if all_equal sampleValue nanPattern then NaN
  else
    let encValue :=
      map4 (fun x => floor (x * 255 + (1 # 2))%Q) sampleValue in
    let decodedValue := dot4 encValue floatDeltas in
    Num (dot2 (minValue, decodedValue) dotRange).

Definition recipRange : vec2 := ((1 / range)%Q, (1 / range)%Q).

(** [setOutput], the encoder: the value stored in [gl_FragColor]. *)
Definition setOutput (decodedValue : float) : vec4 :=
  match decodedValue with
  | NaN => nanPattern
  | Num v =>
      let a := dot2 (v, (- minValue)%Q) recipRange in
      let b := (fract a * 255)%Q in
      let c := (fract b * 255)%Q in
      let d := (fract c * 255)%Q in
      map4 (fun x => (x / 255)%Q) (map4 floor (a, b, c, d))
  end.

End ByteCodec.

End Glsl.
(** ** Vocabulary of the statements *)

(** Two descriptors that differ at most in their packing format. *)
Definition sameButFormat (s s' : ShapeInfo) : Prop :=
  logicalShape s = logicalShape s' /\ texShape s = texShape s'.

Definition sameInputButFormat (x x' : InputInfo) : Prop :=
  name x = name x' /\ sameButFormat (shapeInfo x) (shapeInfo x').

(** The rank of a descriptor, and the ranks the compiler supports. *)
Definition rank (s : ShapeInfo) : nat := List.length (logicalShape s).

Definition supportedRank (s : ShapeInfo) : Prop := (rank s <= 4)%nat.

(** The two messages of the rank error. *)
Definition inputRankError (n : nat) : Error :=
  MkError (numberToString (Z.of_nat n)
           ++ "-D input sampling is not yet supported").

Definition outputRankError (n : nat) : Error :=
  MkError (numberToString (Z.of_nat n)
           ++ "-D output sampling is not yet supported").

(** The declaration [uniform sampler2D name;] of one input. *)
Definition uniformDeclaration (x : InputInfo) : string :=
  "uniform sampler2D " ++ name x ++ ";".

(** [declares ret f snippet]: after leading blanks, [snippet] starts with the
    header [ret f(] of a GLSL function named [f] of return type [ret]. *)
Definition isBlank (c : ascii) : bool :=
  Ascii.eqb c " " || Ascii.eqb c (ascii_of_nat 10).

Fixpoint blank (s : string) : bool :=
  match s with
  | EmptyString => true
  | String c s' => isBlank c && blank s'
  end.

Definition declares (ret f snippet : string) : Prop :=
  exists pre post,
    blank pre = true /\ snippet = pre ++ ret ++ " " ++ f ++ "(" ++ post.


(** A descriptor with its packing format replaced. *)
Definition withFormat (f : TextureChannelPackingFormat) (s : ShapeInfo)
  : ShapeInfo :=
  {| logicalShape := logicalShape s;
     texShape := texShape s;
     textureChannelPackingFormat := f |}.

Definition withInputFormat (f : TextureChannelPackingFormat) (x : InputInfo)
  : InputInfo :=
  {| name := name x; shapeInfo := withFormat f (shapeInfo x) |}.

(** The coordinates that the output decoder of [shape] returns for the
    fragment at [resultUV], put back together by the index formula of the
    [UVfrom*] helper of the same rank, with the strides that the sampler of
    that rank passes to it. *)
Definition decodeThenRecompose (shape : list Z) (texShape : Z * Z)
  (resultUV : Glsl.vec2) : option Z :=
  match shape with
  | [s0] => Some (Glsl.getOutput1DCoords s0 texShape resultUV)
  | [s0; s1] =>
      let '(r, c) := Glsl.getOutput2DCoords (s0, s1) texShape resultUV in
      Some (Glsl.index2D s1 r c)
  | [s0; s1; s2] =>
      let '(r, c, d) := Glsl.getOutput3DCoords (s0, s1, s2) texShape resultUV in
      let stride0 := s1 * s2 in
      let stride1 := s2 in
      Some (Glsl.index3D stride0 stride1 r c d)
  | [s0; s1; s2; s3] =>
      let '(r, c, d, d2) :=
        Glsl.getOutput4DCoords (s0, s1, s2, s3) texShape resultUV in
      let stride2 := s3 in
      let stride1 := s2 * stride2 in
      let stride0 := s1 * stride1 in
      Some (Glsl.index4D stride0 stride1 stride2 r c d d2)
  | _ => None
  end.

(** The centre of the fragment whose flat index in a texture of shape
    [texShape] is [i]. *)
Definition fragmentOfIndex (texShape : Z * Z) (i : Z) : Glsl.vec2 :=
  Glsl.texelCenter (fst texShape) (snd texShape)
    (i / snd texShape, i mod snd texShape).

(** Writing a value with [setOutput] and reading the texel back with
    [sample]: the texture holds the channels that the encoder produced. *)
Definition decodeEncode (FLOAT_MIN FLOAT_MAX BYTE_NAN_VALUE : Z)
  (value : Glsl.float) : Glsl.float :=
  Glsl.sample FLOAT_MIN FLOAT_MAX BYTE_NAN_VALUE
    (fun _ => Glsl.setOutput FLOAT_MIN FLOAT_MAX BYTE_NAN_VALUE value)
    Glsl.halfCR.

(** The test of [sample] for the pattern of not-a-number. *)
Definition isNanPattern (BYTE_NAN_VALUE : Z) (texel : Glsl.vec4) : bool :=
  Glsl.all_equal texel (Glsl.nanPattern BYTE_NAN_VALUE).

(** The quantization step [(MAX - MIN) / 255^4] of the codec. *)
Definition quantum (FLOAT_MIN FLOAT_MAX : Z) : Q :=
  ((Glsl.maxValue FLOAT_MAX - Glsl.minValue FLOAT_MIN)
   / (255 * 255 * 255 * 255))%Q.

(** The normalised value [a] that [setOutput] computes first. *)
Definition normalised (FLOAT_MIN FLOAT_MAX : Z) (v : Q) : Q :=
  Glsl.dot2 (v, (- Glsl.minValue FLOAT_MIN)%Q)
    (Glsl.recipRange FLOAT_MIN FLOAT_MAX).

(** The coordinate that the random-access sampler of an input of shape
    [shape] and texture shape [texShape] hands to [sample] when it is called
    with the coordinates that [getOutputCoords], generated for the same
    shape and texture shape, returns at [resultUV]. *)
Definition sampleAtDecoded (shape : list Z) (texShape : Z * Z)
  (resultUV : Glsl.vec2) : option Glsl.vec2 :=
  match shape with
  | [s0] =>
      Some (Glsl.getSampler1D texShape
              (Glsl.getOutput1DCoords s0 texShape resultUV))
  | [s0; s1] =>
      let '(r, c) := Glsl.getOutput2DCoords (s0, s1) texShape resultUV in
      Some (Glsl.getSampler2D (s0, s1) texShape r c)
  | [s0; s1; s2] =>
      let '(r, c, d) := Glsl.getOutput3DCoords (s0, s1, s2) texShape resultUV in
      Some (Glsl.getSampler3D (s0, s1, s2) texShape r c d)
  | [s0; s1; s2; s3] =>
      let '(r, c, d, d2) :=
        Glsl.getOutput4DCoords (s0, s1, s2, s3) texShape resultUV in
      Some (Glsl.getSampler4D (s0, s1, s2, s3) texShape r c d d2)
  | _ => None
  end.

(** The character of [to] at the place that [c] has in [from]; [c] itself
    when it does not occur there. *)
Fixpoint translate (from to : string) (c : ascii) : ascii :=
  match from, to with
  | String f from', String t to' =>
      if Ascii.eqb c f then t else translate from' to' c
  | _, _ => c
  end.

(** Following the words of the naming contract: the upper-case form of a
    character of an identifier; a character that is not a lower-case letter
    is kept. *)
Definition upperCaseLetter (c : ascii) : ascii :=
  translate "abcdefghijklmnopqrstuvwxyz" "ABCDEFGHIJKLMNOPQRSTUVWXYZ" c.

(** Following the words of the naming contract: the identifier with its
    first character upper-cased and the rest unchanged. *)
Definition upperCaseFirst (texName : string) : string :=
  match texName with
  | EmptyString => EmptyString
  | String c rest => String (upperCaseLetter c) rest
  end.

(** An identifier that is empty or starts with an ASCII character: on these
    the one-byte characters of [string] are the characters of JavaScript. *)
Definition asciiInitial (texName : string) : Prop :=
  match texName with
  | EmptyString => True
  | String c _ => (nat_of_ascii c < 128)%nat
  end.
(** ** The dispatchers fail on unsupported ranks, and only there *)

Section Dispatch.

Variable WEBGL_FLOAT_TEXTURE_ENABLED : bool.
Variables FLOAT_MIN FLOAT_MAX BYTE_NAN_VALUE : Z.

Local Abbreviation compile :=
  (makeShader WEBGL_FLOAT_TEXTURE_ENABLED FLOAT_MIN FLOAT_MAX BYTE_NAN_VALUE).

Lemma getInputSamplingSnippet_supported :
  forall x out broadcast,
    supportedRank (shapeInfo x) ->
    exists s, getInputSamplingSnippet x out broadcast = Ok s.
Proof.
  intros x out broadcast Hr.
  unfold supportedRank, rank in Hr.
  unfold getInputSamplingSnippet.
  destruct (logicalShape (shapeInfo x)) as [|? [|? [|? [|? [|? [|? ?]]]]]];
    cbn [bind]; try (eexists; reflexivity);
    cbn [List.length] in Hr; lia.
Qed.

Lemma getInputSamplingSnippet_unsupported :
  forall x out broadcast,
    (4 < rank (shapeInfo x))%nat ->
    getInputSamplingSnippet x out broadcast
    = Throw (inputRankError (rank (shapeInfo x))).
Proof.
  intros x out broadcast Hr.
  unfold rank in *.
  unfold getInputSamplingSnippet, inputRankError.
  destruct (logicalShape (shapeInfo x)) as [|? [|? [|? [|? [|? ?]]]]];
    cbn [List.length] in Hr; try lia.
  reflexivity.
Qed.

Lemma getOutputSamplingSnippet_supported :
  forall out,
    supportedRank out -> exists s, getOutputSamplingSnippet out = Ok s.
Proof.
  intros out Hr.
  unfold supportedRank, rank in Hr.
  unfold getOutputSamplingSnippet.
  destruct (logicalShape out) as [|? [|? [|? [|? [|? ?]]]]];
    try (eexists; reflexivity);
    cbn [List.length] in Hr; lia.
Qed.

Lemma getOutputSamplingSnippet_unsupported :
  forall out,
    (4 < rank out)%nat ->
    getOutputSamplingSnippet out = Throw (outputRankError (rank out)).
Proof.
  intros out Hr.
  unfold rank in *.
  unfold getOutputSamplingSnippet, outputRankError.
  destruct (logicalShape out) as [|? [|? [|? [|? [|? ?]]]]];
    cbn [List.length] in Hr; try lia.
  reflexivity.
Qed.

Lemma rank_dec :
  forall s, {supportedRank s} + {(4 < rank s)%nat}.
Proof.
  intros s. unfold supportedRank.
  destruct (le_lt_dec (rank s) 4); [left | right]; assumption.
Qed.

(** The traversal of the inputs succeeds when all ranks are supported... *)
Lemma mapM_inputs_supported :
  forall out broadcast inputs,
    Forall (fun x => supportedRank (shapeInfo x)) inputs ->
    exists snippets,
      mapM (fun x => getInputSamplingSnippet x out broadcast) inputs
      = Ok snippets.
Proof.
  intros out broadcast inputs H.
  induction H as [|x inputs Hx _ IH]; cbn [mapM].
  - eexists; reflexivity.
  - destruct (getInputSamplingSnippet_supported x out broadcast Hx)
      as [s Hs].
    destruct IH as [ss Hss].
    rewrite Hs, Hss. cbn [bind]. eexists; reflexivity.
Qed.

(** ... and stops at the first input whose rank is not. *)
Lemma mapM_inputs_unsupported :
  forall out broadcast inputs,
    Exists (fun x => (4 < rank (shapeInfo x))%nat) inputs ->
    exists n,
      (4 < n)%nat /\
      mapM (fun x => getInputSamplingSnippet x out broadcast) inputs
      = Throw (inputRankError n).
Proof.
  intros out broadcast inputs.
  induction inputs as [|x inputs IH]; intros H.
  - inversion H.
  - cbn [mapM].
    destruct (rank_dec (shapeInfo x)) as [Hok | Hbad].
    + destruct (getInputSamplingSnippet_supported x out broadcast Hok)
        as [s Hs].
      rewrite Hs. cbn [bind].
      assert (Hrest : Exists (fun x => (4 < rank (shapeInfo x))%nat) inputs).
      { inversion H as [? ? Hx | ? ? Hr]; subst.
        - unfold supportedRank in Hok. lia.
        - exact Hr. }
      destruct (IH Hrest) as [n [Hn Hthrow]].
      exists n. split; [exact Hn |]. rewrite Hthrow. reflexivity.
    + exists (rank (shapeInfo x)). split; [exact Hbad |].
      rewrite (getInputSamplingSnippet_unsupported x out broadcast Hbad).
      reflexivity.
Qed.

Lemma mapM_Forall2 :
  forall (A B : Type) (f : A -> Result B) xs ys,
    mapM f xs = Ok ys -> Forall2 (fun x y => f x = Ok y) xs ys.
Proof.
  intros A B f xs.
  induction xs as [|x xs IH]; intros ys H; cbn [mapM] in H.
  - inversion H. constructor.
  - destruct (f x) as [y|e] eqn:Hy; cbn [bind] in H; [| discriminate].
    destruct (mapM f xs) as [ys'|e] eqn:Hys; cbn [bind] in H;
      [| discriminate].
    inversion H; subst. constructor; [exact Hy | apply IH; reflexivity].
Qed.

Lemma mapM_ok_supported :
  forall out broadcast inputs snippets,
    mapM (fun x => getInputSamplingSnippet x out broadcast) inputs
    = Ok snippets ->
    Forall (fun x => supportedRank (shapeInfo x)) inputs.
Proof.
  intros out broadcast inputs.
  induction inputs as [|x inputs IH]; intros snippets H.
  - constructor.
  - cbn [mapM] in H.
    destruct (rank_dec (shapeInfo x)) as [Hok | Hbad].
    + destruct (getInputSamplingSnippet x out broadcast); cbn [bind] in H;
        [| discriminate].
      destruct (mapM _ inputs) as [ss|] eqn:Hss; cbn [bind] in H;
        [| discriminate].
      constructor; [exact Hok | eapply IH; reflexivity].
    + rewrite (getInputSamplingSnippet_unsupported x out broadcast Hbad)
        in H.
      discriminate.
Qed.

(** The shape of a successful compilation. *)
Lemma makeShader_ok_inv :
  forall inputs out userCode broadcast source,
    compile inputs out userCode broadcast = Ok source ->
    exists snippets decoder,
      mapM (fun x => getInputSamplingSnippet x out broadcast) inputs
      = Ok snippets /\
      getOutputSamplingSnippet out = Ok decoder /\
      source =
        join LF
          [SHADER_PREFIX;
           getSampleSnippet WEBGL_FLOAT_TEXTURE_ENABLED FLOAT_MIN FLOAT_MAX
             BYTE_NAN_VALUE;
           getSetOutputSnippet WEBGL_FLOAT_TEXTURE_ENABLED BYTE_NAN_VALUE out;
           join LF (map uniformDeclaration inputs);
           join LF snippets; decoder; userCode].
Proof.
  intros inputs out userCode broadcast source H.
  unfold makeShader in H.
  destruct (mapM _ inputs) as [snippets|] eqn:Hs; cbn [bind] in H;
    [| discriminate].
  destruct (getOutputSamplingSnippet out) as [decoder|] eqn:Hd;
    cbn [bind] in H; [| discriminate].
  exists snippets, decoder.
  repeat split. inversion H. reflexivity.
Qed.

Lemma makeShader_ok_iff :
  forall inputs out userCode broadcast,
    (exists source, compile inputs out userCode broadcast = Ok source) <->
    Forall (fun x => supportedRank (shapeInfo x)) inputs /\
    supportedRank out.
Proof.
  intros inputs out userCode broadcast. split.
  - intros [source H].
    destruct (makeShader_ok_inv _ _ _ _ _ H)
      as [snippets [decoder [Hs [Hd _]]]].
    split.
    + eapply mapM_ok_supported; exact Hs.
    + destruct (rank_dec out) as [Hok | Hbad]; [exact Hok |].
      rewrite (getOutputSamplingSnippet_unsupported out Hbad) in Hd.
      discriminate.
  - intros [Hin Hout].
    destruct (mapM_inputs_supported out broadcast inputs Hin) as [ss Hss].
    destruct (getOutputSamplingSnippet_supported out Hout) as [d Hd].
    unfold makeShader. rewrite Hss, Hd. cbn [bind].
    eexists; reflexivity.
Qed.

Lemma makeShader_throw_rank :
  forall inputs out userCode broadcast,
    Exists (fun x => (4 < rank (shapeInfo x))%nat) inputs \/
    (4 < rank out)%nat ->
    exists n,
      (4 < n)%nat /\
      (compile inputs out userCode broadcast = Throw (inputRankError n) \/
       compile inputs out userCode broadcast = Throw (outputRankError n)).
Proof.
  intros inputs out userCode broadcast H.
  destruct (Exists_dec (fun x => (4 < rank (shapeInfo x))%nat) inputs)
    as [Hin | Hnin].
  { intros x. destruct (rank_dec (shapeInfo x)) as [Hok | Hbad];
      [right | left; exact Hbad].
    unfold supportedRank in Hok. lia. }
  - destruct (mapM_inputs_unsupported out broadcast inputs Hin)
      as [n [Hn Hthrow]].
    exists n. split; [exact Hn | left].
    unfold makeShader. rewrite Hthrow. reflexivity.
  - destruct H as [Hin | Hout]; [contradiction |].
    assert (Hall : Forall (fun x => supportedRank (shapeInfo x)) inputs).
    { apply Forall_forall. intros x Hx.
      destruct (rank_dec (shapeInfo x)) as [Hok | Hbad]; [exact Hok |].
      exfalso. apply Hnin. apply Exists_exists. exists x. tauto. }
    destruct (mapM_inputs_supported out broadcast inputs Hall) as [ss Hss].
    exists (rank out). split; [exact Hout | right].
    unfold makeShader. rewrite Hss. cbn [bind].
    rewrite (getOutputSamplingSnippet_unsupported out Hout). reflexivity.
Qed.

(** Neither dispatcher reads the packing format. *)
Lemma getInputSamplingSnippet_format_irrelevant :
  forall x x' out out' broadcast,
    sameInputButFormat x x' ->
    sameButFormat out out' ->
    getInputSamplingSnippet x out broadcast
    = getInputSamplingSnippet x' out' broadcast.
Proof.
  intros x x' out out' broadcast [Hn [Hl Ht]] [Hl' Ht'].
  unfold getInputSamplingSnippet.
  rewrite Hn, Hl, Ht, Hl', Ht'. reflexivity.
Qed.

Lemma getOutputSamplingSnippet_format_irrelevant :
  forall out out',
    sameButFormat out out' ->
    getOutputSamplingSnippet out = getOutputSamplingSnippet out'.
Proof.
  intros out out' [Hl Ht].
  unfold getOutputSamplingSnippet. rewrite Hl, Ht. reflexivity.
Qed.

Lemma mapM_inputs_format_irrelevant :
  forall out out' broadcast inputs inputs',
    Forall2 sameInputButFormat inputs inputs' ->
    sameButFormat out out' ->
    mapM (fun x => getInputSamplingSnippet x out broadcast) inputs
    = mapM (fun x => getInputSamplingSnippet x out' broadcast) inputs'.
Proof.
  intros out out' broadcast inputs inputs' H Hout.
  induction H as [|x x' inputs inputs' Hx _ IH]; cbn [mapM].
  - reflexivity.
  - rewrite (getInputSamplingSnippet_format_irrelevant x x' out out'
               broadcast Hx Hout), IH.
    reflexivity.
Qed.

Lemma uniforms_format_irrelevant :
  forall inputs inputs',
    Forall2 sameInputButFormat inputs inputs' ->
    map (fun x => "uniform sampler2D " ++ name x ++ ";") inputs
    = map (fun x => "uniform sampler2D " ++ name x ++ ";") inputs'.
Proof.
  intros inputs inputs' H.
  induction H as [|x x' inputs inputs' [Hn _] _ IH]; cbn [map].
  - reflexivity.
  - rewrite Hn, IH. reflexivity.
Qed.

Lemma makeShader_format_irrelevant :
  forall inputs inputs' out out' userCode broadcast,
    Forall2 sameInputButFormat inputs inputs' ->
    sameButFormat out out' ->
    compile inputs out userCode broadcast
    = compile inputs' out' userCode broadcast.
Proof.
  intros inputs inputs' out out' userCode broadcast Hin Hout.
  unfold makeShader.
  rewrite (mapM_inputs_format_irrelevant out out' broadcast inputs inputs'
             Hin Hout).
  rewrite (getOutputSamplingSnippet_format_irrelevant out out' Hout).
  rewrite (uniforms_format_irrelevant inputs inputs' Hin).
  reflexivity.
Qed.

Lemma sameInputs_withFormat :
  forall f inputs,
    Forall2 sameInputButFormat inputs (map (withInputFormat f) inputs).
Proof.
  intros f inputs. induction inputs as [|x inputs IH]; cbn [map].
  - constructor.
  - constructor; [| exact IH].
    repeat split; reflexivity.
Qed.

End Dispatch.

(** ** Assembly, errors and packing formats *)

(** Claim C8.  A successful call of [makeShader] returns exactly the
    following pieces in this order, each separated from the next by one line
    break: the shader prefix, the decode snippet of the codec, its encode
    snippet, the uniform declarations of the inputs (one per input, in the
    order of the input list, joined by line breaks), the addressing snippets
    of the inputs (in the same order, joined by line breaks), the
    output-coordinate decoder, and the caller's body as it was given. *)
Theorem makeShader_layout :
  forall (floatTextures : bool) (FLOAT_MIN FLOAT_MAX BYTE_NAN_VALUE : Z)
         (inputs : list InputInfo) (out : ShapeInfo) (userCode : string)
         (broadcast : bool) (source : string),
    makeShader floatTextures FLOAT_MIN FLOAT_MAX BYTE_NAN_VALUE
      inputs out userCode broadcast = Ok source ->
    exists (snippets : list string) (decoder : string),
      Forall2
        (fun x s => getInputSamplingSnippet x out broadcast = Ok s)
        inputs snippets /\
      getOutputSamplingSnippet out = Ok decoder /\
      source =
        SHADER_PREFIX ++ LF
        ++ getSampleSnippet floatTextures FLOAT_MIN FLOAT_MAX BYTE_NAN_VALUE
        ++ LF
        ++ getSetOutputSnippet floatTextures BYTE_NAN_VALUE out ++ LF
        ++ join LF (map uniformDeclaration inputs) ++ LF
        ++ join LF snippets ++ LF
        ++ decoder ++ LF
        ++ userCode.
Proof.
  intros ft fmin fmax nan inputs out userCode broadcast source H.
  destruct (makeShader_ok_inv _ _ _ _ _ _ _ _ _ H)
    as [snippets [decoder [Hs [Hd Hsrc]]]].
  exists snippets, decoder.
  split; [apply mapM_Forall2; exact Hs |].
  split; [exact Hd |].
  rewrite Hsrc. reflexivity.
Qed.

(** Claim C7.  When the logical shape of some input or of the output has
    more than four entries, [makeShader] throws the rank error (raised for
    the first such input, or else for the output) and returns no text. *)
Theorem makeShader_unsupported_rank :
  forall (floatTextures : bool) (FLOAT_MIN FLOAT_MAX BYTE_NAN_VALUE : Z)
         (inputs : list InputInfo) (out : ShapeInfo) (userCode : string)
         (broadcast : bool),
    Exists (fun x => (4 < rank (shapeInfo x))%nat) inputs \/
    (4 < rank out)%nat ->
    (exists n,
        (4 < n)%nat /\
        (makeShader floatTextures FLOAT_MIN FLOAT_MAX BYTE_NAN_VALUE
           inputs out userCode broadcast = Throw (inputRankError n) \/
         makeShader floatTextures FLOAT_MIN FLOAT_MAX BYTE_NAN_VALUE
           inputs out userCode broadcast = Throw (outputRankError n))) /\
    (forall source,
        makeShader floatTextures FLOAT_MIN FLOAT_MAX BYTE_NAN_VALUE
          inputs out userCode broadcast <> Ok source).
Proof.
  intros ft fmin fmax nan inputs out userCode broadcast H.
  destruct (makeShader_throw_rank ft fmin fmax nan inputs out userCode
              broadcast H) as [n [Hn Hthrow]].
  split.
  - exists n. split; assumption.
  - intros source Hok. destruct Hthrow as [Ht | Ht];
      rewrite Ht in Hok; discriminate.
Qed.

(** Claim C4, as amended.  A compilation in which some descriptor has a
    packing format other than [R] does not fail on that account: it returns
    shader text exactly when every descriptor has a rank from 0 to 4, and
    what it returns is what the same descriptors with format [R] give. *)
Theorem makeShader_accepts_any_packing_format :
  forall (floatTextures : bool) (FLOAT_MIN FLOAT_MAX BYTE_NAN_VALUE : Z)
         (inputs : list InputInfo) (out : ShapeInfo) (userCode : string)
         (broadcast : bool),
    Exists (fun x => textureChannelPackingFormat (shapeInfo x) <> R) inputs \/
    textureChannelPackingFormat out <> R ->
    ((exists source,
         makeShader floatTextures FLOAT_MIN FLOAT_MAX BYTE_NAN_VALUE
           inputs out userCode broadcast = Ok source) <->
     Forall (fun x => supportedRank (shapeInfo x)) inputs /\
     supportedRank out) /\
    makeShader floatTextures FLOAT_MIN FLOAT_MAX BYTE_NAN_VALUE
      inputs out userCode broadcast
    = makeShader floatTextures FLOAT_MIN FLOAT_MAX BYTE_NAN_VALUE
        (map (withInputFormat R) inputs) (withFormat R out) userCode
        broadcast.
Proof.
  intros ft fmin fmax nan inputs out userCode broadcast _.
  split.
  - apply makeShader_ok_iff.
  - apply makeShader_format_irrelevant.
    + apply sameInputs_withFormat.
    + split; reflexivity.
Qed.

(** Claim C10.  Two calls of [makeShader] whose descriptors differ at most in
    their packing formats have the same outcome: the same text, byte for
    byte, or the same error; hence no choice of packing formats turns a
    successful compilation into a failing one. *)
Theorem makeShader_ignores_packing_format :
  forall (floatTextures : bool) (FLOAT_MIN FLOAT_MAX BYTE_NAN_VALUE : Z)
         (inputs inputs' : list InputInfo) (out out' : ShapeInfo)
         (userCode : string) (broadcast : bool),
    Forall2 sameInputButFormat inputs inputs' ->
    sameButFormat out out' ->
    makeShader floatTextures FLOAT_MIN FLOAT_MAX BYTE_NAN_VALUE
      inputs out userCode broadcast
    = makeShader floatTextures FLOAT_MIN FLOAT_MAX BYTE_NAN_VALUE
        inputs' out' userCode broadcast /\
    (forall source,
        makeShader floatTextures FLOAT_MIN FLOAT_MAX BYTE_NAN_VALUE
          inputs out userCode broadcast = Ok source ->
        makeShader floatTextures FLOAT_MIN FLOAT_MAX BYTE_NAN_VALUE
          inputs' out' userCode broadcast = Ok source).
Proof.
  intros ft fmin fmax nan inputs inputs' out out' userCode broadcast Hin Hout.
  assert (E := makeShader_format_irrelevant ft fmin fmax nan inputs inputs'
                 out out' userCode broadcast Hin Hout).
  split; [exact E |].
  intros source Hs. rewrite <- E. exact Hs.
Qed.

(** ** Names of the generated functions *)

Lemma declares_skip :
  forall ret f c s,
    isBlank c = true -> declares ret f s -> declares ret f (String c s).
Proof.
  intros ret f c s Hc [pre [post [Hpre Hs]]].
  exists (String c pre), post. split.
  - cbn [blank]. rewrite Hc, Hpre. reflexivity.
  - rewrite Hs. reflexivity.
Qed.

(** Skip the indentation of a template, then read the header. *)
Ltac read_header :=
  cbn [append];
  repeat (apply declares_skip; [reflexivity |]);
  match goal with
  | |- declares ?ret ?f _ => exists ""; eexists; split; [reflexivity |]
  end;
  cbn [append]; reflexivity.

Lemma getSamplerScalar_name :
  forall texName,
    declares "float" ("get" ++ capitalize texName) (getSamplerScalar texName).
Proof. intros texName. unfold getSamplerScalar. read_header. Qed.

Lemma getSampler1D_name :
  forall texName texShape,
    declares "float" ("get" ++ capitalize texName)
      (getSampler1D texName texShape).
Proof.
  intros texName texShape. unfold getSampler1D.
  repeat match goal with |- context [if ?b then _ else _] => destruct b end;
    read_header.
Qed.

Lemma getSampler2D_name :
  forall texName shape texShape,
    declares "float" ("get" ++ capitalize texName)
      (getSampler2D texName shape texShape).
Proof.
  intros texName shape texShape. unfold getSampler2D.
  repeat match goal with |- context [if ?b then _ else _] => destruct b end;
    read_header.
Qed.

Lemma getSampler3D_name :
  forall texName shape texShape,
    declares "float" ("get" ++ capitalize texName)
      (getSampler3D texName shape texShape).
Proof.
  intros texName [[s0 s1] s2] texShape. unfold getSampler3D.
  repeat match goal with |- context [if ?b then _ else _] => destruct b end;
    read_header.
Qed.

Lemma getSampler4D_name :
  forall texName shape texShape,
    declares "float" ("get" ++ capitalize texName)
      (getSampler4D texName shape texShape).
Proof.
  intros texName [[[s0 s1] s2] s3] texShape. unfold getSampler4D.
  repeat match goal with |- context [if ?b then _ else _] => destruct b end;
    read_header.
Qed.

Lemma getSamplerFlat_name :
  forall texName texShape,
    declares "float" ("get" ++ capitalize texName ++ "Flat")
      (getSamplerFlat texName texShape).
Proof.
  intros texName texShape. unfold getSamplerFlat.
  repeat match goal with |- context [if ?b then _ else _] => destruct b end;
    read_header.
Qed.

Lemma getSamplerAtOutputCoords_name :
  forall texName inTexShape outTexShape broadcast,
    declares "float" ("get" ++ capitalize texName ++ "AtOutCoords")
      (getSamplerAtOutputCoords texName inTexShape outTexShape broadcast).
Proof.
  intros texName inTexShape outTexShape broadcast.
  unfold getSamplerAtOutputCoords.
  destruct (arraysEqual _ _); read_header.
Qed.

Lemma getOutput1DCoords_name :
  forall shape texShape,
    declares "int" "getOutputCoords" (getOutput1DCoords shape texShape).
Proof.
  intros shape texShape. unfold getOutput1DCoords.
  repeat match goal with |- context [if ?b then _ else _] => destruct b end;
    read_header.
Qed.

Lemma getOutput2DCoords_name :
  forall shape texShape,
    declares "ivec2" "getOutputCoords" (getOutput2DCoords shape texShape).
Proof.
  intros shape texShape. unfold getOutput2DCoords.
  repeat match goal with |- context [if ?b then _ else _] => destruct b end;
    read_header.
Qed.

Lemma getOutput3DCoords_name :
  forall shape texShape,
    declares "ivec3" "getOutputCoords" (getOutput3DCoords shape texShape).
Proof.
  intros [[s0 s1] s2] texShape. unfold getOutput3DCoords. read_header.
Qed.

Lemma getOutput4DCoords_name :
  forall shape texShape,
    declares "ivec4" "getOutputCoords" (getOutput4DCoords shape texShape).
Proof.
  intros [[[s0 s1] s2] s3] texShape. unfold getOutput4DCoords. read_header.
Qed.

Lemma toUpperCase_letter :
  forall c : ascii, toUpperCase c = upperCaseLetter c.
Proof.
  intros c. destruct c as [[] [] [] [] [] [] [] []]; reflexivity.
Qed.

Lemma capitalize_upperCaseFirst :
  forall texName, capitalize texName = upperCaseFirst texName.
Proof.
  intros [|c rest]; [reflexivity |].
  unfold capitalize, upperCaseFirst. rewrite toUpperCase_letter.
  reflexivity.
Qed.

Lemma append_assoc :
  forall s1 s2 s3 : string, (s1 ++ s2) ++ s3 = s1 ++ s2 ++ s3.
Proof.
  intros s1 s2 s3. induction s1 as [|c s1 IH]; cbn [append].
  - reflexivity.
  - rewrite IH. reflexivity.
Qed.

(** The snippet of an input is its random-access sampler, then its accessor
    at the output coordinates when the input is eligible, then its flat
    sampler. *)
Lemma getInputSamplingSnippet_parts :
  forall x out broadcast,
    supportedRank (shapeInfo x) ->
    exists sampler : string,
      getInputSamplingSnippet x out broadcast
      = Ok (sampler
            ++ (if broadcast
                   || arraysEqual (logicalShape (shapeInfo x))
                        (logicalShape out)
                then getSamplerAtOutputCoords (name x)
                       (texShape (shapeInfo x)) (texShape out) broadcast
                else "")
            ++ getSamplerFlat (name x) (texShape (shapeInfo x))) /\
      declares "float" ("get" ++ capitalize (name x)) sampler.
Proof.
  intros x out broadcast Hr.
  unfold supportedRank, rank in Hr.
  unfold getInputSamplingSnippet.
  destruct (logicalShape (shapeInfo x)) as [|s0 [|s1 [|s2 [|s3 [|s4 rest]]]]];
    cbn [List.length] in Hr; try lia; cbn [bind append];
    match goal with
    | |- context [Ok ((if _ then ?s ++ _ else _) ++ _)] => exists s
    end;
    (split;
     [ match goal with
       | |- context [if ?b then _ else _] => destruct b
       end;
       [ rewrite append_assoc; reflexivity | reflexivity ] |]).
  - apply getSamplerScalar_name.
  - apply getSampler1D_name.
  - apply getSampler2D_name.
  - apply getSampler3D_name.
  - apply getSampler4D_name.
Qed.

(** Claim C9.  For an input whose identifier [name] starts with an ASCII
    character, the snippet generated for the input is made of a function
    named ['get' + capitalize(name)], then, when the accessor at the output
    coordinates is emitted, a function named
    ['get' + capitalize(name) + 'AtOutCoords'], then a function named
    ['get' + capitalize(name) + 'Flat'], where [capitalize] upper-cases the
    first character ([a] to [A], ..., [z] to [Z]) and keeps the rest; the
    decoder of the output coordinates is absent for rank 0 and is a function
    named [getOutputCoords] for every other supported rank. *)
Theorem accessor_names :
  forall (x : InputInfo) (out : ShapeInfo) (broadcast : bool),
    asciiInitial (name x) ->
    supportedRank (shapeInfo x) ->
    capitalize (name x) = upperCaseFirst (name x) /\
    (exists sampler atOut flat : string,
        getInputSamplingSnippet x out broadcast
        = Ok (sampler ++ atOut ++ flat) /\
        declares "float" ("get" ++ upperCaseFirst (name x)) sampler /\
        (if broadcast
            || arraysEqual (logicalShape (shapeInfo x)) (logicalShape out)
         then
           atOut = getSamplerAtOutputCoords (name x)
                     (texShape (shapeInfo x)) (texShape out) broadcast /\
           declares "float"
             ("get" ++ upperCaseFirst (name x) ++ "AtOutCoords") atOut
         else atOut = "") /\
        flat = getSamplerFlat (name x) (texShape (shapeInfo x)) /\
        declares "float" ("get" ++ upperCaseFirst (name x) ++ "Flat") flat)
    /\
    match getOutputSamplingSnippet out with
    | Ok decoder =>
        match rank out with
        | O => decoder = ""
        | _ => exists ret, declares ret "getOutputCoords" decoder
        end
    | Throw _ => (4 < rank out)%nat
    end.
Proof.
  intros x out broadcast _ Hr.
  pose proof (capitalize_upperCaseFirst (name x)) as E.
  split; [exact E |]. rewrite <- E. split.
  - destruct (getInputSamplingSnippet_parts x out broadcast Hr)
      as [sampler [Hs Hname]].
    exists sampler.
    exists (if broadcast
               || arraysEqual (logicalShape (shapeInfo x)) (logicalShape out)
            then getSamplerAtOutputCoords (name x) (texShape (shapeInfo x))
                   (texShape out) broadcast
            else "").
    exists (getSamplerFlat (name x) (texShape (shapeInfo x))).
    split; [exact Hs |]. split; [exact Hname |].
    split;
      [| split; [reflexivity | apply getSamplerFlat_name]].
    destruct (broadcast
              || arraysEqual (logicalShape (shapeInfo x)) (logicalShape out));
      [split; [reflexivity | apply getSamplerAtOutputCoords_name]
      | reflexivity].
  - unfold getOutputSamplingSnippet, rank.
    destruct (logicalShape out) as [|? [|? [|? [|? [|? ?]]]]];
      cbn [List.length].
    + reflexivity.
    + eexists. apply getOutput1DCoords_name.
    + eexists. apply getOutput2DCoords_name.
    + eexists. apply getOutput3DCoords_name.
    + eexists. apply getOutput4DCoords_name.
    + lia.
Qed.

(** ** Integer and rational arithmetic of the generated code *)

Import Glsl.

Lemma idiv_nonneg :
  forall a b, 0 <= a -> 0 < b -> idiv a b = a / b.
Proof.
  intros a b Ha Hb. unfold idiv. apply Z.quot_div_nonneg; assumption.
Qed.

Lemma idiv_rem_nonneg :
  forall a b, 0 <= a -> 0 < b -> a - idiv a b * b = a mod b.
Proof.
  intros a b Ha Hb. rewrite idiv_nonneg by assumption.
  rewrite (Z.mod_eq a b) by lia. lia.
Qed.

Lemma int_of_float_nonneg :
  forall x : Q, (0 <= x)%Q -> int_of_float x = Qfloor x.
Proof.
  intros x Hx. unfold int_of_float.
  destruct (Qle_bool 0 x) eqn:E; [reflexivity |].
  apply Qle_bool_iff in Hx. congruence.
Qed.

Lemma Qfloor_half :
  forall n : Z, Qfloor (inject_Z n + (1 # 2)) = n.
Proof.
  intros n.
  assert (Hlo : (inject_Z n <= inject_Z n + (1 # 2))%Q) by lra.
  assert (Hhi : (inject_Z n + (1 # 2) < inject_Z (n + 1))%Q).
  { rewrite inject_Z_plus. change (inject_Z 1) with 1%Q. lra. }
  pose proof (Qfloor_le (inject_Z n + (1 # 2))) as Hle.
  pose proof (Qlt_floor (inject_Z n + (1 # 2))) as Hlt.
  assert (H1 : (inject_Z (Qfloor (inject_Z n + (1 # 2))) < inject_Z (n + 1))%Q)
    by (eapply Qle_lt_trans; eassumption).
  assert (H2 : (inject_Z n < inject_Z (Qfloor (inject_Z n + (1 # 2)) + 1))%Q)
    by (eapply Qle_lt_trans; eassumption).
  rewrite <- Zlt_Qlt in H1, H2. lia.
Qed.

(** Scaling the centre of a texel by the size of the texture and dropping
    the fraction gives the texel back. *)
Lemma int_of_center :
  forall n k : Z,
    0 < n -> 0 <= k ->
    int_of_float ((float_of_int k + (1 # 2)) / float_of_int n
                  * float_of_int n)%Q = k.
Proof.
  intros n k Hn Hk. unfold float_of_int.
  assert (Hn' : (0 < inject_Z n)%Q)
    by (change 0%Q with (inject_Z 0); rewrite <- Zlt_Qlt; exact Hn).
  assert (Hk' : (0 <= inject_Z k)%Q)
    by (change 0%Q with (inject_Z 0); rewrite <- Zle_Qle; exact Hk).
  assert (E : ((inject_Z k + (1 # 2)) / inject_Z n * inject_Z n
               == inject_Z k + (1 # 2))%Q).
  { field. intros H. rewrite H in Hn'. lra. }
  rewrite int_of_float_nonneg by (rewrite E; lra).
  rewrite (Qfloor_comp _ _ E). apply Qfloor_half.
Qed.

Lemma resTexRC_center :
  forall rows cols texR texC : Z,
    0 < rows -> 0 < cols -> 0 <= texR -> 0 <= texC ->
    resTexRC (rows, cols) (texelCenter rows cols (texR, texC))
    = (texR, texC).
Proof.
  intros rows cols texR texC Hr Hc HR HC.
  unfold resTexRC, texelCenter, halfCR. cbn [fst snd].
  rewrite !int_of_center by assumption. reflexivity.
Qed.

Lemma arraysEqual_pair :
  forall p q : Z * Z,
    arraysEqual (arrayOfPair p) (arrayOfPair q) = true <-> p = q.
Proof.
  intros [a b] [c d]. unfold arrayOfPair. cbn [arraysEqual fst snd].
  rewrite andb_true_r, andb_true_iff, !Z.eqb_eq.
  split; [intros [-> ->]; reflexivity | intros H; inversion H; auto].
Qed.

Lemma sizeFromShape_pair :
  forall p : Z * Z, sizeFromShape (arrayOfPair p) = fst p * snd p.
Proof.
  intros [a b]. unfold sizeFromShape, arrayOfPair. cbn [fold_left fst snd].
  lia.
Qed.

(** The texel of the fragment whose flat index is [i]. *)
Lemma texel_of_index :
  forall cols i,
    0 < cols -> 0 <= i ->
    0 <= i / cols /\ 0 <= i mod cols < cols /\
    i / cols * cols + i mod cols = i.
Proof.
  intros cols i Hc Hi.
  pose proof (Z.mod_pos_bound i cols Hc).
  pose proof (Z.div_pos i cols Hi Hc).
  pose proof (Z.div_mod i cols). lia.
Qed.

(** One step of a multiply-accumulate stays within the product of the
    extents. *)
Lemma mac_bound :
  forall a n b m,
    0 <= a < n -> 0 <= b < m -> 0 <= a * m + b < n * m.
Proof. intros a n b m Ha Hb. nia. Qed.

(** ** Addressing *)

(** Claim C6.  For a logical shape of rank 1 to 4 and a flat index [i] of
    that shape, the coordinates that the generated [getOutputCoords] returns
    for the fragment of flat index [i], recomposed as the sum of coordinate
    times row-major stride (the index formula of [UVfrom1D] ... [UVfrom4D]),
    give [i] back. *)
Theorem coordinate_round_trip :
  forall (shape : list Z) (texShape : Z * Z) (i : Z),
    (1 <= List.length shape <= 4)%nat ->
    0 < fst texShape -> 0 < snd texShape ->
    sizeFromShape shape <= fst texShape * snd texShape ->
    0 <= i < sizeFromShape shape ->
    decodeThenRecompose shape texShape (fragmentOfIndex texShape i) = Some i.
Proof.
  intros shape [rows cols] i Hrank Hrows Hcols Hfit Hi.
  cbn [fst snd] in *.
  destruct (texel_of_index cols i Hcols (proj1 Hi)) as [Hq [Hm Hdm]].
  assert (Hres : resTexRC (rows, cols) (fragmentOfIndex (rows, cols) i)
                 = (i / cols, i mod cols)).
  { unfold fragmentOfIndex. cbn [fst snd].
    apply resTexRC_center; lia. }
  destruct shape as [|s0 [|s1 [|s2 [|s3 [|s4 rest]]]]];
    cbn [List.length] in Hrank; try lia;
    unfold decodeThenRecompose.
  - (* rank 1 *)
    unfold getOutput1DCoords. cbn [fst snd].
    destruct (rows =? 1) eqn:E1; [| destruct (cols =? 1) eqn:E2].
    + apply Z.eqb_eq in E1. subst rows.
      unfold fragmentOfIndex, texelCenter, halfCR. cbn [fst snd].
      rewrite int_of_center by lia.
      rewrite Z.mod_small by lia. reflexivity.
    + apply Z.eqb_eq in E2. subst cols.
      unfold fragmentOfIndex, texelCenter, halfCR. cbn [fst snd].
      rewrite int_of_center by lia.
      rewrite Z.div_1_r. reflexivity.
    + rewrite Hres. f_equal. lia.
  - (* rank 2 *)
    unfold getOutput2DCoords. cbn [fst snd].
    destruct (arraysEqual _ _) eqn:Eq;
      [| destruct (s1 =? 1) eqn:E1; [| destruct (s0 =? 1) eqn:E0]];
      rewrite Hres; unfold index2D, idiv; f_equal.
    + apply arraysEqual_pair in Eq. inversion Eq; subst. lia.
    + apply Z.eqb_eq in E1. lia.
    + lia.
    + lia.
  - (* rank 3 *)
    unfold getOutput3DCoords. rewrite Hres. cbn [snd].
    unfold index3D. f_equal. lia.
  - (* rank 4 *)
    unfold getOutput4DCoords. rewrite Hres. cbn [snd].
    unfold index4D. f_equal. lia.
Qed.

(** Claim C5.  For a shape of rank 3 or 4 whose texture has as many columns
    as the product of all dimensions but the first, and for coordinates
    within the shape, the address taken by the fast path of the sampler
    ([texR = row], [texC] the multiply-accumulate of the other coordinates)
    is the address of the generic path ([UVfrom3D], [UVfrom4D]: the flat
    index of the stride law divided by the number of columns, and its
    remainder). *)
Theorem fast_path_equivalence :
  (forall (tR s0 s1 s2 row col depth : Z),
     0 <= row < s0 -> 0 <= col < s1 -> 0 <= depth < s2 ->
     let tC := s1 * s2 in
     let flat := index3D (s1 * s2) s2 row col depth in
     Glsl.getSampler3D (s0, s1, s2) (tR, tC) row col depth
     = texelCenter tR tC (row, col * s2 + depth) /\
     UVfrom3D tR tC (s1 * s2) s2 row col depth
     = texelCenter tR tC (flat / tC, flat mod tC) /\
     (row, col * s2 + depth) = (flat / tC, flat mod tC) /\
     Glsl.getSampler3D (s0, s1, s2) (tR, tC) row col depth
     = UVfrom3D tR tC (s1 * s2) s2 row col depth)
  /\
  (forall (tR s0 s1 s2 s3 row col depth depth2 : Z),
     0 <= row < s0 -> 0 <= col < s1 -> 0 <= depth < s2 ->
     0 <= depth2 < s3 ->
     let tC := s1 * (s2 * s3) in
     let flat := index4D (s1 * (s2 * s3)) (s2 * s3) s3 row col depth depth2 in
     Glsl.getSampler4D (s0, s1, s2, s3) (tR, tC) row col depth depth2
     = texelCenter tR tC (row, col * (s2 * s3) + depth * s3 + depth2) /\
     UVfrom4D tR tC (s1 * (s2 * s3)) (s2 * s3) s3 row col depth depth2
     = texelCenter tR tC (flat / tC, flat mod tC) /\
     (row, col * (s2 * s3) + depth * s3 + depth2)
     = (flat / tC, flat mod tC) /\
     Glsl.getSampler4D (s0, s1, s2, s3) (tR, tC) row col depth depth2
     = UVfrom4D tR tC (s1 * (s2 * s3)) (s2 * s3) s3 row col depth depth2).
Proof.
  split.
  - intros tR s0 s1 s2 row col depth Hrow Hcol Hdepth. cbv zeta.
    assert (Hin : 0 <= col * s2 + depth < s1 * s2)
      by (apply mac_bound; assumption).
    assert (Hflat : index3D (s1 * s2) s2 row col depth
                    = row * (s1 * s2) + (col * s2 + depth))
      by (unfold index3D; lia).
    assert (Hq : index3D (s1 * s2) s2 row col depth / (s1 * s2) = row).
    { rewrite Hflat. rewrite Z.div_add_l by lia.
      rewrite Z.div_small by lia. lia. }
    assert (Hm : index3D (s1 * s2) s2 row col depth mod (s1 * s2)
                 = col * s2 + depth).
    { rewrite Hflat. rewrite Z.add_comm, Z.mod_add by lia.
      apply Z.mod_small. lia. }
    assert (Hfast : Glsl.getSampler3D (s0, s1, s2) (tR, s1 * s2) row col depth
                    = texelCenter tR (s1 * s2) (row, col * s2 + depth)).
    { unfold Glsl.getSampler3D. cbn [fst snd]. rewrite Z.eqb_refl.
      reflexivity. }
    assert (Hgen : UVfrom3D tR (s1 * s2) (s1 * s2) s2 row col depth
                   = texelCenter tR (s1 * s2)
                       (index3D (s1 * s2) s2 row col depth / (s1 * s2),
                        index3D (s1 * s2) s2 row col depth mod (s1 * s2))).
    { unfold UVfrom3D.
      rewrite idiv_rem_nonneg, idiv_nonneg by (rewrite ?Hflat; nia).
      reflexivity. }
    repeat split; try assumption.
    + rewrite Hq, Hm. reflexivity.
    + rewrite Hfast, Hgen, Hq, Hm. reflexivity.
  - intros tR s0 s1 s2 s3 row col depth depth2 Hrow Hcol Hdepth Hdepth2.
    cbv zeta.
    assert (Hin : 0 <= col * (s2 * s3) + depth * s3 + depth2
                  < s1 * (s2 * s3)).
    { pose proof (mac_bound depth s2 depth2 s3 Hdepth Hdepth2) as Hlow.
      pose proof (mac_bound col s1 (depth * s3 + depth2) (s2 * s3) Hcol Hlow).
      lia. }
    assert (Hflat : index4D (s1 * (s2 * s3)) (s2 * s3) s3 row col depth depth2
                    = row * (s1 * (s2 * s3))
                      + (col * (s2 * s3) + depth * s3 + depth2))
      by (unfold index4D; lia).
    assert (Hq : index4D (s1 * (s2 * s3)) (s2 * s3) s3 row col depth depth2
                 / (s1 * (s2 * s3)) = row).
    { rewrite Hflat. rewrite Z.div_add_l by lia.
      rewrite Z.div_small by lia. lia. }
    assert (Hm : index4D (s1 * (s2 * s3)) (s2 * s3) s3 row col depth depth2
                 mod (s1 * (s2 * s3))
                 = col * (s2 * s3) + depth * s3 + depth2).
    { rewrite Hflat. rewrite Z.add_comm, Z.mod_add by lia.
      apply Z.mod_small. lia. }
    assert (Hfast :
             Glsl.getSampler4D (s0, s1, s2, s3) (tR, s1 * (s2 * s3))
               row col depth depth2
             = texelCenter tR (s1 * (s2 * s3))
                 (row, col * (s2 * s3) + depth * s3 + depth2)).
    { unfold Glsl.getSampler4D. cbn [fst snd]. rewrite Z.eqb_refl.
      reflexivity. }
    assert (Hgen :
             UVfrom4D tR (s1 * (s2 * s3)) (s1 * (s2 * s3)) (s2 * s3) s3
               row col depth depth2
             = texelCenter tR (s1 * (s2 * s3))
                 (index4D (s1 * (s2 * s3)) (s2 * s3) s3 row col depth depth2
                  / (s1 * (s2 * s3)),
                  index4D (s1 * (s2 * s3)) (s2 * s3) s3 row col depth depth2
                  mod (s1 * (s2 * s3)))).
    { unfold UVfrom4D.
      rewrite idiv_rem_nonneg, idiv_nonneg by (rewrite ?Hflat; nia).
      reflexivity. }
    repeat split; try assumption.
    + rewrite Hq, Hm. reflexivity.
    + rewrite Hfast, Hgen, Hq, Hm. reflexivity.
Qed.

(** Claim C1, as amended.  For an input whose texture shape is not the
    output's and with the broadcast flag set, [get<Name>AtOutCoords] takes
    the flat index [texR * outTexCols + texC] of the current fragment,
    reduces it modulo the size [inTexRows * inTexCols] of the input's
    texture (the number of elements of the input only when the input fills
    its texture), and samples the texel at row [index div inTexCols] and
    column [index mod inTexCols], at the coordinate that the generic path
    ([UVfrom1D]) gives for the reduced index; so an input kept in a texture
    of one texel, as a rank-0 input is, is read at that texel from every
    position of the output. *)
Theorem broadcast_at_output_coords :
  forall (inTexShape outTexShape : Z * Z) (texR texC : Z),
    0 < fst inTexShape -> 0 < snd inTexShape ->
    0 <= texR < fst outTexShape -> 0 <= texC < snd outTexShape ->
    let resultUV := texelCenter (fst outTexShape) (snd outTexShape)
                      (texR, texC) in
    let index := texR * snd outTexShape + texC in
    let reduced := index mod (fst inTexShape * snd inTexShape) in
    (arraysEqual (arrayOfPair inTexShape) (arrayOfPair outTexShape) = false ->
     Glsl.getSamplerAtOutputCoords inTexShape outTexShape true resultUV
     = texelCenter (fst inTexShape) (snd inTexShape)
         (reduced / snd inTexShape, reduced mod snd inTexShape) /\
     Glsl.getSamplerAtOutputCoords inTexShape outTexShape true resultUV
     = UVfrom1D (fst inTexShape) (snd inTexShape) reduced)
    /\
    (fst inTexShape * snd inTexShape = 1 ->
     Glsl.getSamplerAtOutputCoords inTexShape outTexShape true resultUV
     = texelCenter (fst inTexShape) (snd inTexShape) (0, 0)).
Proof.
  intros [inR inC] [outR outC] texR texC HinR HinC HtexR HtexC.
  cbn [fst snd] in *. cbv zeta.
  assert (Hsize : 0 < inR * inC) by nia.
  assert (Hindex : 0 <= texR * outC + texC) by nia.
  pose proof (Z.mod_pos_bound (texR * outC + texC) (inR * inC) Hsize)
    as Hred.
  assert (Hgeneric :
           arraysEqual (arrayOfPair (inR, inC)) (arrayOfPair (outR, outC))
           = false ->
           Glsl.getSamplerAtOutputCoords (inR, inC) (outR, outC) true
             (texelCenter outR outC (texR, texC))
           = texelCenter inR inC
               ((texR * outC + texC) mod (inR * inC) / inC,
                ((texR * outC + texC) mod (inR * inC)) mod inC)).
  { intros Hne. unfold Glsl.getSamplerAtOutputCoords. rewrite Hne.
    rewrite resTexRC_center by lia.
    rewrite sizeFromShape_pair. cbn [fst snd].
    rewrite (idiv_rem_nonneg (texR * outC + texC)) by lia.
    rewrite idiv_rem_nonneg, idiv_nonneg by lia.
    reflexivity. }
  split.
  - intros Hne. split; [apply Hgeneric; exact Hne |].
    rewrite (Hgeneric Hne). unfold UVfrom1D.
    rewrite idiv_rem_nonneg, idiv_nonneg by lia.
    reflexivity.
  - intros Hone.
    assert (inR = 1 /\ inC = 1) as [-> ->] by nia.
    destruct (arraysEqual (arrayOfPair (1, 1)) (arrayOfPair (outR, outC)))
      eqn:Heq.
    + apply arraysEqual_pair in Heq. inversion Heq; subst.
      unfold Glsl.getSamplerAtOutputCoords.
      replace texR with 0 by lia. replace texC with 0 by lia.
      reflexivity.
    + rewrite (Hgeneric eq_refl). rewrite Z.mod_1_r. reflexivity.
Qed.

(** ** The codec of unsigned-byte textures *)

Lemma floor_bounds :
  forall x : Q, (floor x <= x /\ x < floor x + 1)%Q.
Proof.
  intros x. unfold floor. split.
  - apply Qfloor_le.
  - pose proof (Qlt_floor x) as H. rewrite inject_Z_plus in H. exact H.
Qed.

Lemma fract_bounds :
  forall x : Q, (0 <= fract x /\ fract x < 1)%Q.
Proof.
  intros x. unfold fract. destruct (floor_bounds x). split; lra.
Qed.

Lemma floor_zero_iff :
  forall x : Q, (floor x == 0)%Q <-> (0 <= x /\ x < 1)%Q.
Proof.
  intros x. destruct (floor_bounds x) as [Hlo Hhi]. split.
  - intros E. rewrite E in Hlo, Hhi. split; lra.
  - intros [H0 H1]. unfold floor in *.
    assert (inject_Z (Qfloor x) < inject_Z 1)%Q by (change (inject_Z 1) with 1%Q; lra).
    assert (inject_Z (-1) < inject_Z (Qfloor x))%Q
      by (change (inject_Z (-1)) with (-1)%Q; lra).
    rewrite <- Zlt_Qlt in *.
    replace (Qfloor x) with 0%Z by lia. reflexivity.
Qed.

(** The byte read back from a channel that holds [floor x / 255]. *)
Lemma floor_restore :
  forall x : Q, floor (floor x / 255 * 255 + (1 # 2))%Q = floor x.
Proof.
  intros x. unfold floor. f_equal.
  assert (E : (inject_Z (Qfloor x) / 255 * 255 + (1 # 2)
               == inject_Z (Qfloor x) + (1 # 2))%Q) by field.
  rewrite (Qfloor_comp _ _ E). apply Qfloor_half.
Qed.

Lemma Qfloor_between :
  forall (x : Q) (lo hi : Z),
    (inject_Z lo <= x)%Q -> (x < inject_Z hi)%Q -> lo <= Qfloor x < hi.
Proof.
  intros x lo hi Hlo Hhi.
  pose proof (Qfloor_le x) as Hle. pose proof (Qlt_floor x) as Hlt.
  assert (H1 : (inject_Z (Qfloor x) < inject_Z hi)%Q)
    by (eapply Qle_lt_trans; eassumption).
  assert (H2 : (inject_Z lo < inject_Z (Qfloor x + 1))%Q)
    by (eapply Qle_lt_trans; eassumption).
  rewrite <- Zlt_Qlt in H1, H2. lia.
Qed.

Section ByteCodecFacts.

Variables FLOAT_MIN FLOAT_MAX BYTE_NAN_VALUE : Z.
Hypothesis bounds_ordered : FLOAT_MIN < FLOAT_MAX.

Local Abbreviation minV := (minValue FLOAT_MIN).
Local Abbreviation maxV := (maxValue FLOAT_MAX).
Local Abbreviation encode := (setOutput FLOAT_MIN FLOAT_MAX BYTE_NAN_VALUE).
Local Abbreviation q := (quantum FLOAT_MIN FLOAT_MAX).

Lemma width_pos : (0 < maxV - minV)%Q.
Proof.
  unfold minValue, maxValue.
  assert (inject_Z FLOAT_MIN < inject_Z FLOAT_MAX)%Q
    by (rewrite <- Zlt_Qlt; exact bounds_ordered).
  lra.
Qed.

Lemma quantum_pos : (0 < q)%Q.
Proof.
  unfold quantum. pose proof width_pos as Hw.
  assert (E : ((maxV - minV) / (255 * 255 * 255 * 255)
               == (maxV - minV) * (1 # 4228250625))%Q) by field.
  rewrite E. lra.
Qed.

Local Abbreviation a_of := (normalised FLOAT_MIN FLOAT_MAX).

Lemma normalised_spec :
  forall v, (a_of v * (maxV - minV) == (v - minV) * 255)%Q.
Proof.
  intros v. unfold normalised, dot2, recipRange, range. cbn [fst snd].
  pose proof width_pos. field. lra.
Qed.

Lemma normalised_quantum :
  forall v, (a_of v * (255 * 255 * 255) * q == v - minV)%Q.
Proof.
  intros v. unfold normalised, dot2, recipRange, range, quantum.
  cbn [fst snd]. pose proof width_pos. field. lra.
Qed.

Lemma normalised_bounds :
  forall v, (minV <= v <= maxV)%Q -> (0 <= a_of v <= 255)%Q.
Proof.
  intros v [Hlo Hhi]. pose proof width_pos as Hw.
  pose proof (normalised_spec v) as E. split; nra.
Qed.

(** The four digits of the encoder and what is left after them. *)
Lemma setOutput_digits :
  forall v,
    exists k0 k1 k2 k3 rest : Q,
      encode (Num v) = ((k0 / 255)%Q, (k1 / 255)%Q, (k2 / 255)%Q, (k3 / 255)%Q) /\
      k0 = floor (a_of v) /\
      k1 = floor ((a_of v - k0) * 255)%Q /\
      k2 = floor (((a_of v - k0) * 255 - k1) * 255)%Q /\
      k3 = floor ((((a_of v - k0) * 255 - k1) * 255 - k2) * 255)%Q /\
      (rest == (((a_of v - k0) * 255 - k1) * 255 - k2) * 255 - k3)%Q /\
      (0 <= rest /\ rest < 1)%Q.
Proof.
  intros v.
  exists (floor (a_of v)),
         (floor (fract (a_of v) * 255)%Q),
         (floor (fract (fract (a_of v) * 255) * 255)%Q),
         (floor (fract (fract (fract (a_of v) * 255) * 255) * 255)%Q),
         (fract (fract (fract (fract (a_of v) * 255) * 255) * 255)%Q).
  repeat split; try reflexivity.
  - apply fract_bounds.
  - apply fract_bounds.
Qed.

(** The channels of an in-range number are bytes over 255, so that a
    texture of unsigned bytes holds them as they are. *)
Lemma setOutput_bytes :
  forall v,
    (minV <= v <= maxV)%Q ->
    exists n0 n1 n2 n3 : Z,
      (0 <= n0 <= 255 /\ 0 <= n1 <= 254 /\ 0 <= n2 <= 254 /\ 0 <= n3 <= 254)
      /\
      encode (Num v)
      = ((inject_Z n0 / 255)%Q, (inject_Z n1 / 255)%Q,
         (inject_Z n2 / 255)%Q, (inject_Z n3 / 255)%Q).
Proof.
  intros v Hv. pose proof (normalised_bounds v Hv) as [Ha0 Ha255].
  set (a := a_of v) in *.
  exists (Qfloor a), (Qfloor (fract a * 255)%Q),
         (Qfloor (fract (fract a * 255) * 255)%Q),
         (Qfloor (fract (fract (fract a * 255) * 255) * 255)%Q).
  split; [| reflexivity].
  pose proof (fract_bounds a).
  pose proof (fract_bounds (fract a * 255)%Q).
  pose proof (fract_bounds (fract (fract a * 255) * 255)%Q).
  assert (B0 : 0 <= Qfloor a < 256)
    by (apply Qfloor_between;
        [change (inject_Z 0) with 0%Q | change (inject_Z 256) with 256%Q];
        lra).
  assert (B1 : 0 <= Qfloor (fract a * 255)%Q < 255)
    by (apply Qfloor_between;
        [change (inject_Z 0) with 0%Q | change (inject_Z 255) with 255%Q];
        lra).
  assert (B2 : 0 <= Qfloor (fract (fract a * 255) * 255)%Q < 255)
    by (apply Qfloor_between;
        [change (inject_Z 0) with 0%Q | change (inject_Z 255) with 255%Q];
        lra).
  assert (B3 : 0 <= Qfloor (fract (fract (fract a * 255) * 255) * 255)%Q
               < 255)
    by (apply Qfloor_between;
        [change (inject_Z 0) with 0%Q | change (inject_Z 255) with 255%Q];
        lra).
  lia.
Qed.

Lemma decodeEncode_NaN :
  decodeEncode FLOAT_MIN FLOAT_MAX BYTE_NAN_VALUE NaN = NaN.
Proof.
  unfold decodeEncode, sample, texture2D, setOutput, nanPattern, vec4_of,
    all_equal.
  rewrite Qeq_bool_refl. reflexivity.
Qed.

Lemma isNanPattern_digits :
  forall k0 k1 k2 k3 : Q,
    isNanPattern BYTE_NAN_VALUE
      ((k0 / 255)%Q, (k1 / 255)%Q, (k2 / 255)%Q, (k3 / 255)%Q) = true <->
    (k0 == 255 * inject_Z BYTE_NAN_VALUE /\
     k1 == 255 * inject_Z BYTE_NAN_VALUE /\
     k2 == 255 * inject_Z BYTE_NAN_VALUE /\
     k3 == 255 * inject_Z BYTE_NAN_VALUE)%Q.
Proof.
  intros k0 k1 k2 k3.
  unfold isNanPattern, all_equal, nanPattern, vec4_of.
  rewrite !andb_true_iff, !Qeq_bool_iff.
  assert (D : forall k n : Q, (k / 255 == n <-> k == 255 * n)%Q).
  { intros k n. split; intros E.
    - rewrite <- E. field.
    - rewrite E. field. }
  rewrite !D. tauto.
Qed.

(** The encoder produces the pattern of not-a-number for a number exactly
    when that pattern is all zeros and the number is less than one
    quantization step above the lower bound. *)
Lemma setOutput_nanPattern_iff :
  forall v,
    (minV <= v)%Q ->
    isNanPattern BYTE_NAN_VALUE (encode (Num v)) = true <->
    BYTE_NAN_VALUE = 0 /\ (v - minV < q)%Q.
Proof.
  intros v Hlo.
  pose proof width_pos as Hw. pose proof quantum_pos as Hq.
  pose proof (normalised_spec v) as Ha.
  pose proof (normalised_quantum v) as Haq.
  assert (Ha0 : (0 <= a_of v)%Q) by nra.
  destruct (setOutput_digits v)
    as [k0 [k1 [k2 [k3 [rest [Henc [E0 [E1 [E2 [E3 [Hrest Hr]]]]]]]]]]].
  rewrite Henc, isNanPattern_digits.
  pose proof (floor_bounds (a_of v)) as B0. rewrite <- E0 in B0.
  pose proof (floor_bounds ((a_of v - k0) * 255)%Q) as B1.
  rewrite <- E1 in B1.
  pose proof (floor_bounds (((a_of v - k0) * 255 - k1) * 255)%Q) as B2.
  rewrite <- E2 in B2.
  pose proof (floor_bounds
                ((((a_of v - k0) * 255 - k1) * 255 - k2) * 255)%Q)
    as B3.
  rewrite <- E3 in B3.
  split.
  - intros [N0 [N1 [N2 N3]]].
    assert (Hnan : BYTE_NAN_VALUE = 0).
    { assert (inject_Z (-1) < inject_Z BYTE_NAN_VALUE)%Q
        by (change (inject_Z (-1)) with (-1)%Q; lra).
      assert (inject_Z BYTE_NAN_VALUE < inject_Z 1)%Q
        by (change (inject_Z 1) with 1%Q; lra).
      rewrite <- Zlt_Qlt in *. lia. }
    split; [exact Hnan |].
    rewrite Hnan in *. change (inject_Z 0) with 0%Q in *.
    assert (a_of v * (255 * 255 * 255) < 1)%Q by lra.
    nra.
  - intros [Hnan Hsmall].
    rewrite Hnan. change (inject_Z 0) with 0%Q.
    assert (Hs : (a_of v * (255 * 255 * 255) < 1)%Q) by nra.
    assert (Z0 : (k0 == 0)%Q)
      by (rewrite E0; apply floor_zero_iff; split; lra).
    assert (Z1 : (k1 == 0)%Q)
      by (rewrite E1; apply floor_zero_iff; split; lra).
    assert (Z2 : (k2 == 0)%Q)
      by (rewrite E2; apply floor_zero_iff; split; lra).
    assert (Z3 : (k3 == 0)%Q)
      by (rewrite E3; apply floor_zero_iff; split; lra).
    repeat split; lra.
Qed.

(** What the decoder returns for the texel of a number that was not
    encoded as the pattern of not-a-number. *)
Lemma decodeEncode_number :
  forall v,
    (minV <= v)%Q ->
    isNanPattern BYTE_NAN_VALUE (encode (Num v)) = false ->
    exists r : Q,
      decodeEncode FLOAT_MIN FLOAT_MAX BYTE_NAN_VALUE (Num v) = Num r /\
      (0 <= v - r)%Q /\ (v - r < q)%Q.
Proof.
  intros v Hlo Hnot.
  pose proof width_pos as Hw. pose proof quantum_pos as Hq.
  destruct (setOutput_digits v)
    as [k0 [k1 [k2 [k3 [rest [Henc [E0 [E1 [E2 [E3 [Hrest Hr]]]]]]]]]]].
  unfold decodeEncode, sample, texture2D.
  unfold isNanPattern in Hnot. rewrite Hnot.
  eexists. split; [reflexivity |].
  rewrite Henc. unfold map4.
  assert (R0 : floor (k0 / 255 * 255 + (1 # 2))%Q = k0)
    by (rewrite E0 at 1; rewrite floor_restore; symmetry; exact E0).
  assert (R1 : floor (k1 / 255 * 255 + (1 # 2))%Q = k1)
    by (rewrite E1 at 1; rewrite floor_restore; symmetry; exact E1).
  assert (R2 : floor (k2 / 255 * 255 + (1 # 2))%Q = k2)
    by (rewrite E2 at 1; rewrite floor_restore; symmetry; exact E2).
  assert (R3 : floor (k3 / 255 * 255 + (1 # 2))%Q = k3)
    by (rewrite E3 at 1; rewrite floor_restore; symmetry; exact E3).
  rewrite R0, R1, R2, R3.
  clear R0 R1 R2 R3 E0 E1 E2 E3 Henc Hnot.
  assert (E : (v - dot2 (minV, dot4 (k0, k1, k2, k3) floatDeltas)
                     (dotRange FLOAT_MIN FLOAT_MAX)
               == rest * q)%Q).
  { rewrite Hrest.
    unfold normalised, quantum, dot2, dot4, floatDeltas, dotRange,
      recipRange, range.
    cbn [fst snd]. field. lra. }
  rewrite E. split; nra.
Qed.

End ByteCodecFacts.

(** Claim C2, as amended.  For bounds [MIN < MAX] and a value [v] between
    them, decoding the four channels that the encoder produces for [v] gives
    a number [r] with [0 <= v - r < (MAX - MIN) / 255^4], unless the pattern
    of not-a-number is all zeros and [v] is less than that step above
    [MIN]: then the channels of [v] are that pattern and the decoder
    returns not-a-number.  Decoding the encoding of not-a-number gives
    not-a-number. *)
Theorem codec_round_trip :
  forall (FLOAT_MIN FLOAT_MAX BYTE_NAN_VALUE : Z) (v : Q),
    FLOAT_MIN < FLOAT_MAX ->
    (minValue FLOAT_MIN <= v /\ v <= maxValue FLOAT_MAX)%Q ->
    (BYTE_NAN_VALUE <> 0 \/
     (quantum FLOAT_MIN FLOAT_MAX <= v - minValue FLOAT_MIN)%Q ->
     exists r : Q,
       decodeEncode FLOAT_MIN FLOAT_MAX BYTE_NAN_VALUE (Num v) = Num r /\
       (0 <= v - r)%Q /\ (v - r < quantum FLOAT_MIN FLOAT_MAX)%Q)
    /\
    (BYTE_NAN_VALUE = 0 /\
     (v - minValue FLOAT_MIN < quantum FLOAT_MIN FLOAT_MAX)%Q ->
     decodeEncode FLOAT_MIN FLOAT_MAX BYTE_NAN_VALUE (Num v) = NaN)
    /\
    decodeEncode FLOAT_MIN FLOAT_MAX BYTE_NAN_VALUE NaN = NaN.
Proof.
  intros fmin fmax nan v Hb [Hlo Hhi].
  pose proof (setOutput_nanPattern_iff fmin fmax nan Hb v Hlo) as Hiff.
  repeat split.
  - intros Hcase.
    apply decodeEncode_number; [exact Hb | exact Hlo |].
    destruct (isNanPattern nan (setOutput fmin fmax nan (Num v))) eqn:E;
      [| reflexivity].
    destruct (proj1 Hiff eq_refl) as [Hz Hsmall].
    destruct Hcase as [Hnz | Hbig]; [contradiction | lra].
  - intros Hcase. apply Hiff in Hcase.
    unfold decodeEncode, sample, texture2D.
    unfold isNanPattern in Hcase. rewrite Hcase. reflexivity.
  - apply decodeEncode_NaN.
Qed.

(** Claim C3, as amended.  For bounds [MIN < MAX] and a value [v] between
    them, the four channels that the encoder produces for [v] are the
    pattern of not-a-number exactly when that pattern is all zeros and [v]
    is less than [(MAX - MIN) / 255^4] above [MIN]; with any other pattern,
    and for every other value, the test of the decoder fails. *)
Theorem nan_pattern_of_number :
  forall (FLOAT_MIN FLOAT_MAX BYTE_NAN_VALUE : Z) (v : Q),
    FLOAT_MIN < FLOAT_MAX ->
    (minValue FLOAT_MIN <= v /\ v <= maxValue FLOAT_MAX)%Q ->
    isNanPattern BYTE_NAN_VALUE
      (setOutput FLOAT_MIN FLOAT_MAX BYTE_NAN_VALUE (Num v)) = true <->
    BYTE_NAN_VALUE = 0 /\
    (v - minValue FLOAT_MIN < quantum FLOAT_MIN FLOAT_MAX)%Q.
Proof.
  intros fmin fmax nan v Hb [Hlo _].
  apply setOutput_nanPattern_iff; assumption.
Qed.

(** ** Instances *)

(** With the all-zeros pattern for not-a-number, the lower bound itself is
    encoded as that pattern and the decoder does not return a number for
    it; so it is with the bounds [-1] and [1], and with [-20000] and
    [20000]. *)
Lemma codec_round_trip_fails_at_min :
  ((minValue (-1) <= -1 /\ -1 <= maxValue 1)%Q /\
   decodeEncode (-1) 1 0 (Num (-1)) = NaN) /\
  ((minValue (-20000) <= -20000 /\ -20000 <= maxValue 20000)%Q /\
   decodeEncode (-20000) 20000 0 (Num (-20000)) = NaN).
Proof.
  split; (split; [split; unfold Qle; cbn; lia | vm_compute; reflexivity]).
Qed.

Lemma nan_pattern_reached_at_min :
  ((minValue (-1) <= -1 /\ -1 <= maxValue 1)%Q /\
   setOutput (-1) 1 0 (Num (-1)) = (0 / 255, 0 / 255, 0 / 255, 0 / 255)%Q /\
   isNanPattern 0 (setOutput (-1) 1 0 (Num (-1))) = true) /\
  ((minValue (-20000) <= -20000 /\ -20000 <= maxValue 20000)%Q /\
   setOutput (-20000) 20000 0 (Num (-20000))
   = (0 / 255, 0 / 255, 0 / 255, 0 / 255)%Q /\
   isNanPattern 0 (setOutput (-20000) 20000 0 (Num (-20000))) = true).
Proof.
  split;
    (split; [split; unfold Qle; cbn; lia | split; vm_compute; reflexivity]).
Qed.

(** A descriptor with the packing format [RGBA_1_BY_4] compiles. *)
Lemma makeShader_accepts_RGBA_1_BY_4 :
  textureChannelPackingFormat
    {| logicalShape := [2; 3]; texShape := (2, 3);
       textureChannelPackingFormat := RGBA_1_BY_4 |} <> R /\
  exists source,
    makeShader false (-1) 1 0
      [{| name := "a";
          shapeInfo := {| logicalShape := [2; 3]; texShape := (2, 3);
                          textureChannelPackingFormat := RGBA_1_BY_4 |} |}]
      {| logicalShape := [2; 3]; texShape := (2, 3);
         textureChannelPackingFormat := RGBA_1_BY_4 |}
      "void main() { setOutput(getAAtOutCoords()); }" false
    = Ok source.
Proof.
  split; [discriminate |].
  eexists. vm_compute. reflexivity.
Qed.

Lemma codec_round_trip_witness :
  (exists r : Q,
      decodeEncode (-1) 1 0 (Num (1 # 2)) = Num r /\
      (0 <= (1 # 2) - r)%Q /\ ((1 # 2) - r < quantum (-1) 1)%Q) /\
  decodeEncode (-1) 1 0 NaN = NaN.
Proof.
  assert (Hb : -1 < 1) by lia.
  assert (Hv : (minValue (-1) <= 1 # 2 /\ 1 # 2 <= maxValue 1)%Q)
    by (split; unfold Qle; cbn; lia).
  destruct (codec_round_trip (-1) 1 0 (1 # 2) Hb Hv) as [Hnum [_ Hnan]].
  split; [| exact Hnan].
  apply Hnum. right. unfold Qle. cbn. lia.
Defined.

Lemma nan_pattern_of_number_witness :
  isNanPattern 0 (setOutput (-1) 1 0 (Num (1 # 2))) = true <->
  0 = 0 /\ ((1 # 2) - minValue (-1) < quantum (-1) 1)%Q.
Proof.
  apply (nan_pattern_of_number (-1) 1 0 (1 # 2)).
  - lia.
  - split; unfold Qle; cbn; lia.
Defined.

Lemma makeShader_accepts_any_packing_format_witness :
  exists source,
    makeShader false (-1) 1 0
      [{| name := "a";
          shapeInfo := {| logicalShape := [2; 3]; texShape := (2, 3);
                          textureChannelPackingFormat := RGBA_1_BY_4 |} |}]
      {| logicalShape := [2; 3]; texShape := (2, 3);
         textureChannelPackingFormat := R |}
      "void main() { setOutput(getAAtOutCoords()); }" false
    = Ok source.
Proof.
  apply (makeShader_accepts_any_packing_format false (-1) 1 0).
  - left. constructor. discriminate.
  - split.
    + constructor; [| constructor]. unfold supportedRank. cbn. lia.
    + unfold supportedRank. cbn. lia.
Defined.

Lemma makeShader_ignores_packing_format_witness :
  makeShader false (-1) 1 0
    [{| name := "a";
        shapeInfo := {| logicalShape := [2; 3]; texShape := (2, 3);
                        textureChannelPackingFormat := RGBA_1_BY_4 |} |}]
    {| logicalShape := [2; 3]; texShape := (2, 3);
       textureChannelPackingFormat := R |}
    "void main() { setOutput(getAAtOutCoords()); }" false
  = makeShader false (-1) 1 0
      [{| name := "a";
          shapeInfo := {| logicalShape := [2; 3]; texShape := (2, 3);
                          textureChannelPackingFormat := R |} |}]
      {| logicalShape := [2; 3]; texShape := (2, 3);
         textureChannelPackingFormat := RGBA_1_BY_4 |}
      "void main() { setOutput(getAAtOutCoords()); }" false.
Proof.
  apply (makeShader_ignores_packing_format false (-1) 1 0).
  - constructor; [| constructor]. repeat split; reflexivity.
  - split; reflexivity.
Defined.

Lemma makeShader_unsupported_rank_witness :
  exists n,
    (4 < n)%nat /\
    (makeShader false (-1) 1 0
       [{| name := "a";
           shapeInfo := {| logicalShape := [1; 1; 1; 1; 2];
                           texShape := (1, 2);
                           textureChannelPackingFormat := R |} |}]
       {| logicalShape := [2]; texShape := (1, 2);
          textureChannelPackingFormat := R |}
       "void main() {}" false = Throw (inputRankError n) \/
     makeShader false (-1) 1 0
       [{| name := "a";
           shapeInfo := {| logicalShape := [1; 1; 1; 1; 2];
                           texShape := (1, 2);
                           textureChannelPackingFormat := R |} |}]
       {| logicalShape := [2]; texShape := (1, 2);
          textureChannelPackingFormat := R |}
       "void main() {}" false = Throw (outputRankError n)).
Proof.
  apply (makeShader_unsupported_rank false (-1) 1 0).
  left. constructor. unfold rank. cbn. lia.
Defined.

Lemma makeShader_layout_witness :
  exists source,
    makeShader true (-1) 1 0
      [{| name := "a";
          shapeInfo := {| logicalShape := []; texShape := (1, 1);
                          textureChannelPackingFormat := R |} |}]
      {| logicalShape := [3]; texShape := (1, 3);
         textureChannelPackingFormat := R |}
      "void main() { setOutput(getAAtOutCoords()); }" true
    = Ok source /\
    exists snippets decoder,
      Forall2
        (fun x s =>
           getInputSamplingSnippet x
             {| logicalShape := [3]; texShape := (1, 3);
                textureChannelPackingFormat := R |} true = Ok s)
        [{| name := "a";
            shapeInfo := {| logicalShape := []; texShape := (1, 1);
                            textureChannelPackingFormat := R |} |}]
        snippets /\
      getOutputSamplingSnippet
        {| logicalShape := [3]; texShape := (1, 3);
           textureChannelPackingFormat := R |} = Ok decoder /\
      source =
        SHADER_PREFIX ++ LF
        ++ getSampleSnippet true (-1) 1 0 ++ LF
        ++ getSetOutputSnippet true 0
             {| logicalShape := [3]; texShape := (1, 3);
                textureChannelPackingFormat := R |} ++ LF
        ++ join LF
             (map uniformDeclaration
                [{| name := "a";
                    shapeInfo := {| logicalShape := []; texShape := (1, 1);
                                    textureChannelPackingFormat := R |} |}])
        ++ LF
        ++ join LF snippets ++ LF
        ++ decoder ++ LF
        ++ "void main() { setOutput(getAAtOutCoords()); }".
Proof.
  eexists. split; [reflexivity |].
  apply (makeShader_layout true (-1) 1 0). reflexivity.
Defined.

Lemma coordinate_round_trip_witness :
  decodeThenRecompose [2; 3; 4] (4, 6) (fragmentOfIndex (4, 6) 17) = Some 17.
Proof.
  apply (coordinate_round_trip [2; 3; 4] (4, 6) 17).
  - cbn. lia.
  - cbn. lia.
  - cbn. lia.
  - cbn. lia.
  - cbn. lia.
Defined.

Lemma fast_path_equivalence_witness :
  Glsl.getSampler3D (2, 3, 4) (2, 12) 1 2 3
  = UVfrom3D 2 12 (3 * 4) 4 1 2 3 /\
  Glsl.getSampler4D (2, 3, 4, 5) (2, 60) 1 2 3 4
  = UVfrom4D 2 60 (3 * (4 * 5)) (4 * 5) 5 1 2 3 4.
Proof.
  split.
  - apply (proj1 fast_path_equivalence 2 2 3 4 1 2 3); lia.
  - apply (proj2 fast_path_equivalence 2 2 3 4 5 1 2 3 4); lia.
Defined.

Lemma broadcast_at_output_coords_witness :
  Glsl.getSamplerAtOutputCoords (2, 2) (1, 8) true (texelCenter 1 8 (0, 7))
  = texelCenter 2 2 (1, 1) /\
  Glsl.getSamplerAtOutputCoords (1, 1) (2, 3) true (texelCenter 2 3 (1, 2))
  = texelCenter 1 1 (0, 0).
Proof.
  split.
  - apply (proj1 (broadcast_at_output_coords (2, 2) (1, 8) 0 7
                    ltac:(cbn; lia) ltac:(cbn; lia)
                    ltac:(cbn; lia) ltac:(cbn; lia))).
    reflexivity.
  - apply (proj2 (broadcast_at_output_coords (1, 1) (2, 3) 1 2
                    ltac:(cbn; lia) ltac:(cbn; lia)
                    ltac:(cbn; lia) ltac:(cbn; lia))).
    reflexivity.
Defined.

(** A rank-0 input kept in a texture of one row and two columns, broadcast
    over an output of one row and four columns: the texture holds the one
    element of the input ([1 <= 1 * 2]), the index is reduced modulo 2, not
    modulo 1, and the fragments of columns 0 and 1 read two different
    texels of the input. *)
Lemma broadcast_scalar_in_wider_texture :
  (sizeFromShape [] = 1 /\ sizeFromShape [] <= 1 * 2) /\
  arraysEqual (arrayOfPair (1, 2)) (arrayOfPair (1, 4)) = false /\
  Glsl.getSamplerAtOutputCoords (1, 2) (1, 4) true (texelCenter 1 4 (0, 0))
  = texelCenter 1 2 (0, 0) /\
  Glsl.getSamplerAtOutputCoords (1, 2) (1, 4) true (texelCenter 1 4 (0, 1))
  = texelCenter 1 2 (0, 1) /\
  resTexRC (1, 2) (texelCenter 1 2 (0, 0)) = (0, 0) /\
  resTexRC (1, 2) (texelCenter 1 2 (0, 1)) = (0, 1) /\
  (0 * 4 + 1) mod sizeFromShape [] = 0 /\
  (0 * 4 + 1) mod (1 * 2) = 1.
Proof.
  split; [split; [reflexivity | cbn; lia] |].
  repeat split; vm_compute; reflexivity.
Qed.

Lemma accessor_names_witness :
  capitalize "matrixA" = "MatrixA" /\
  exists sampler atOut flat : string,
    getInputSamplingSnippet
      {| name := "matrixA";
         shapeInfo := {| logicalShape := [2; 3]; texShape := (2, 3);
                         textureChannelPackingFormat := R |} |}
      {| logicalShape := [6]; texShape := (1, 6);
         textureChannelPackingFormat := R |} true
    = Ok (sampler ++ atOut ++ flat) /\
    declares "float" "getMatrixA" sampler /\
    declares "float" "getMatrixAAtOutCoords" atOut /\
    declares "float" "getMatrixAFlat" flat.
Proof.
  destruct (accessor_names
              {| name := "matrixA";
                 shapeInfo := {| logicalShape := [2; 3]; texShape := (2, 3);
                                 textureChannelPackingFormat := R |} |}
              {| logicalShape := [6]; texShape := (1, 6);
                 textureChannelPackingFormat := R |} true)
    as [Hcap [[sampler [atOut [flat [Hs [Hn [Ha [_ Hf]]]]]]] _]].
  - cbn. lia.
  - unfold supportedRank. cbn. lia.
  - split; [exact Hcap |].
    exists sampler, atOut, flat.
    split; [exact Hs |]. split; [exact Hn |].
    split; [exact (proj2 Ha) | exact Hf].
Defined.

(** ** Further properties of the samplers and decoders *)

Lemma div_mod_mac :
  forall a b m, 0 <= b < m -> (a * m + b) / m = a /\ (a * m + b) mod m = b.
Proof.
  intros a b m Hb. split.
  - rewrite Z.div_add_l by lia. rewrite Z.div_small by lia. lia.
  - rewrite Z.add_comm, Z.mod_add by lia. apply Z.mod_small. lia.
Qed.

Lemma UVfrom1D_texel :
  forall tR tC index,
    0 < tC -> 0 <= index ->
    UVfrom1D tR tC index = texelCenter tR tC (index / tC, index mod tC).
Proof.
  intros tR tC index HtC Hi. unfold UVfrom1D.
  rewrite idiv_rem_nonneg, idiv_nonneg by lia. reflexivity.
Qed.

(** The three shortcuts of the samplers agree with [UVfrom1D]. *)
Lemma single_texel_shortcut : halfCR = UVfrom1D 1 1 0.
Proof. reflexivity. Qed.

Lemma single_column_shortcut :
  forall tR index,
    0 <= index ->
    ((1 # 2)%Q, ((float_of_int index + (1 # 2)) / float_of_int tR)%Q)
    = UVfrom1D tR 1 index.
Proof.
  intros tR index Hi. rewrite UVfrom1D_texel by lia.
  rewrite Z.div_1_r, Z.mod_1_r. reflexivity.
Qed.

Lemma single_row_shortcut :
  forall tC index,
    0 <= index < tC ->
    (((float_of_int index + (1 # 2)) / float_of_int tC)%Q, (1 # 2)%Q)
    = UVfrom1D 1 tC index.
Proof.
  intros tC index Hi. rewrite UVfrom1D_texel by lia.
  rewrite Z.div_small, Z.mod_small by lia. reflexivity.
Qed.

Lemma getSamplerFlat_generic :
  forall tR tC index,
    0 < tR -> 0 < tC -> 0 <= index < tR * tC ->
    getSamplerFlat (tR, tC) index = UVfrom1D tR tC index.
Proof.
  intros tR tC index HtR HtC Hi. unfold getSamplerFlat. cbn [fst snd].
  destruct (tC =? 1) eqn:EC; destruct (tR =? 1) eqn:ER; cbn [andb];
    try (apply Z.eqb_eq in EC; subst tC);
    try (apply Z.eqb_eq in ER; subst tR).
  - replace index with 0 by lia. apply single_texel_shortcut.
  - apply single_column_shortcut. lia.
  - apply single_row_shortcut. lia.
  - reflexivity.
Qed.

Lemma getSampler1D_generic :
  forall tR tC index,
    0 < tR -> 0 < tC -> 0 <= index < tR * tC ->
    getSampler1D (tR, tC) index = UVfrom1D tR tC index.
Proof.
  intros tR tC index HtR HtC Hi. unfold getSampler1D. cbn [fst snd].
  destruct (tR =? 1) eqn:ER; destruct (tC =? 1) eqn:EC; cbn [andb];
    try (apply Z.eqb_eq in EC; subst tC);
    try (apply Z.eqb_eq in ER; subst tR).
  - replace index with 0 by lia. apply single_texel_shortcut.
  - apply single_row_shortcut. lia.
  - apply single_column_shortcut. lia.
  - reflexivity.
Qed.

Lemma getSampler2D_generic :
  forall s0 s1 tR tC row col,
    0 < tR -> 0 < tC ->
    0 <= row < s0 -> 0 <= col < s1 -> s0 * s1 <= tR * tC ->
    getSampler2D (s0, s1) (tR, tC) row col
    = UVfrom1D tR tC (index2D s1 row col).
Proof.
  intros s0 s1 tR tC row col HtR HtC Hrow Hcol Hfit.
  pose proof (mac_bound row s0 col s1 Hrow Hcol) as Hidx.
  unfold index2D. unfold getSampler2D. cbn [fst snd].
  destruct (arraysEqual _ _) eqn:Eq.
  - apply arraysEqual_pair in Eq. inversion Eq; subst.
    rewrite UVfrom1D_texel by lia.
    destruct (div_mod_mac row col tC Hcol) as [-> ->]. reflexivity.
  - destruct (tC =? 1) eqn:EC.
    + apply Z.eqb_eq in EC. subst tC.
      destruct (s0 =? 1) eqn:E0; [| destruct (s1 =? 1) eqn:E1].
      * apply Z.eqb_eq in E0. subst s0.
        replace (row * s1 + col) with col by nia.
        apply single_column_shortcut. lia.
      * apply Z.eqb_eq in E1. subst s1.
        replace (row * 1 + col) with row by lia.
        apply single_column_shortcut. lia.
      * apply single_column_shortcut. lia.
    + destruct (tR =? 1) eqn:ER.
      * apply Z.eqb_eq in ER. subst tR.
        apply single_row_shortcut. lia.
      * reflexivity.
Qed.

Lemma getSampler3D_generic :
  forall s0 s1 s2 tR tC row col depth,
    0 <= row < s0 -> 0 <= col < s1 -> 0 <= depth < s2 ->
    0 < tC ->
    Glsl.getSampler3D (s0, s1, s2) (tR, tC) row col depth
    = UVfrom1D tR tC (index3D (s1 * s2) s2 row col depth).
Proof.
  intros s0 s1 s2 tR tC row col depth Hrow Hcol Hdepth HtC.
  pose proof (mac_bound col s1 depth s2 Hcol Hdepth) as Hin.
  unfold Glsl.getSampler3D. cbn [fst snd].
  destruct (tC =? s1 * s2) eqn:E; [| reflexivity].
  apply Z.eqb_eq in E. subst tC.
  unfold index3D.
  replace (row * (s1 * s2) + col * s2 + depth)
    with (row * (s1 * s2) + (col * s2 + depth)) by lia.
  rewrite UVfrom1D_texel by nia.
  destruct (div_mod_mac row (col * s2 + depth) (s1 * s2) Hin) as [-> ->].
  reflexivity.
Qed.

Lemma getSampler4D_generic :
  forall s0 s1 s2 s3 tR tC row col depth depth2,
    0 <= row < s0 -> 0 <= col < s1 -> 0 <= depth < s2 ->
    0 <= depth2 < s3 ->
    0 < tC ->
    Glsl.getSampler4D (s0, s1, s2, s3) (tR, tC) row col depth depth2
    = UVfrom1D tR tC
        (index4D (s1 * (s2 * s3)) (s2 * s3) s3 row col depth depth2).
Proof.
  intros s0 s1 s2 s3 tR tC row col depth depth2 Hrow Hcol Hdepth Hdepth2
    HtC.
  pose proof (mac_bound depth s2 depth2 s3 Hdepth Hdepth2) as Hlow.
  pose proof (mac_bound col s1 (depth * s3 + depth2) (s2 * s3) Hcol Hlow)
    as Hin.
  unfold Glsl.getSampler4D. cbn [fst snd].
  destruct (tC =? s1 * (s2 * s3)) eqn:E; [| reflexivity].
  apply Z.eqb_eq in E. subst tC.
  unfold index4D.
  replace (row * (s1 * (s2 * s3)) + col * (s2 * s3) + depth * s3 + depth2)
    with (row * (s1 * (s2 * s3))
          + (col * (s2 * s3) + (depth * s3 + depth2))) by lia.
  rewrite UVfrom1D_texel by nia.
  destruct (div_mod_mac row (col * (s2 * s3) + (depth * s3 + depth2))
              (s1 * (s2 * s3)) Hin) as [-> ->].
  replace (col * (s2 * s3) + depth * s3 + depth2)
    with (col * (s2 * s3) + (depth * s3 + depth2)) by lia.
  reflexivity.
Qed.

Lemma fragment_resTexRC :
  forall tR tC i,
    0 < tR -> 0 < tC -> 0 <= i ->
    resTexRC (tR, tC) (fragmentOfIndex (tR, tC) i) = (i / tC, i mod tC).
Proof.
  intros tR tC i HtR HtC Hi.
  destruct (texel_of_index tC i HtC Hi) as [Hq [Hm _]].
  unfold fragmentOfIndex. cbn [fst snd]. apply resTexRC_center; lia.
Qed.

Lemma fragment_flat_index :
  forall tC i, 0 < tC -> 0 <= i -> i / tC * tC + i mod tC = i.
Proof.
  intros tC i HtC Hi. apply (texel_of_index tC i HtC Hi).
Qed.

Lemma getOutput1DCoords_spec :
  forall s0 tR tC i,
    0 < tR -> 0 < tC -> 0 <= i < tR * tC ->
    getOutput1DCoords s0 (tR, tC) (fragmentOfIndex (tR, tC) i) = i.
Proof.
  intros s0 tR tC i HtR HtC Hi.
  unfold getOutput1DCoords. cbn [fst snd].
  destruct (tR =? 1) eqn:E1; [| destruct (tC =? 1) eqn:E2].
  - apply Z.eqb_eq in E1. subst tR.
    unfold fragmentOfIndex, texelCenter, halfCR. cbn [fst snd].
    rewrite int_of_center by (try apply Z.mod_pos_bound; lia).
    apply Z.mod_small. lia.
  - apply Z.eqb_eq in E2. subst tC.
    unfold fragmentOfIndex, texelCenter, halfCR. cbn [fst snd].
    rewrite int_of_center by (rewrite ?Z.div_1_r; lia).
    apply Z.div_1_r.
  - rewrite fragment_resTexRC by lia. apply fragment_flat_index; lia.
Qed.

Lemma getOutput2DCoords_spec :
  forall s0 s1 tR tC i,
    0 < tR -> 0 < tC -> 0 < s1 ->
    0 <= i < s0 * s1 -> s0 * s1 <= tR * tC ->
    getOutput2DCoords (s0, s1) (tR, tC) (fragmentOfIndex (tR, tC) i)
    = (i / s1, i mod s1).
Proof.
  intros s0 s1 tR tC i HtR HtC Hs1 Hi Hfit.
  unfold getOutput2DCoords. cbn [fst snd].
  rewrite fragment_resTexRC by lia.
  rewrite fragment_flat_index by lia.
  destruct (arraysEqual _ _) eqn:Eq;
    [| destruct (s1 =? 1) eqn:E1; [| destruct (s0 =? 1) eqn:E0]].
  - apply arraysEqual_pair in Eq. inversion Eq; subst. reflexivity.
  - apply Z.eqb_eq in E1. subst s1.
    rewrite Z.div_1_r, Z.mod_1_r. reflexivity.
  - apply Z.eqb_eq in E0. subst s0.
    rewrite Z.div_small, Z.mod_small by lia. reflexivity.
  - rewrite idiv_rem_nonneg, idiv_nonneg by lia. reflexivity.
Qed.

Lemma getOutput3DCoords_spec :
  forall s0 s1 s2 tR tC i,
    0 < tR -> 0 < tC -> 0 < s1 -> 0 < s2 -> 0 <= i ->
    getOutput3DCoords (s0, s1, s2) (tR, tC) (fragmentOfIndex (tR, tC) i)
    = (i / (s1 * s2), i mod (s1 * s2) / s2, (i mod (s1 * s2)) mod s2).
Proof.
  intros s0 s1 s2 tR tC i HtR HtC Hs1 Hs2 Hi.
  unfold getOutput3DCoords.
  rewrite fragment_resTexRC by lia. cbn [snd].
  rewrite fragment_flat_index by lia.
  assert (Hst : 0 < s1 * s2) by nia.
  pose proof (Z.mod_pos_bound i (s1 * s2) Hst).
  rewrite (idiv_rem_nonneg i) by lia.
  rewrite idiv_nonneg by lia.
  rewrite idiv_rem_nonneg, idiv_nonneg by lia.
  reflexivity.
Qed.

Lemma getOutput4DCoords_spec :
  forall s0 s1 s2 s3 tR tC i,
    0 < tR -> 0 < tC -> 0 < s1 -> 0 < s2 -> 0 < s3 -> 0 <= i ->
    getOutput4DCoords (s0, s1, s2, s3) (tR, tC)
      (fragmentOfIndex (tR, tC) i)
    = (i / (s1 * (s2 * s3)),
       i mod (s1 * (s2 * s3)) / (s2 * s3),
       (i mod (s1 * (s2 * s3))) mod (s2 * s3) / s3,
       ((i mod (s1 * (s2 * s3))) mod (s2 * s3)) mod s3).
Proof.
  intros s0 s1 s2 s3 tR tC i HtR HtC Hs1 Hs2 Hs3 Hi.
  unfold getOutput4DCoords.
  rewrite fragment_resTexRC by lia. cbn [snd].
  rewrite fragment_flat_index by lia.
  assert (Hst1 : 0 < s2 * s3) by nia.
  assert (Hst0 : 0 < s1 * (s2 * s3)) by nia.
  pose proof (Z.mod_pos_bound i (s1 * (s2 * s3)) Hst0).
  pose proof (Z.mod_pos_bound (i mod (s1 * (s2 * s3))) (s2 * s3) Hst1).
  rewrite (idiv_rem_nonneg i) by lia.
  rewrite (idiv_nonneg i) by lia.
  rewrite (idiv_rem_nonneg (i mod (s1 * (s2 * s3)))) by lia.
  rewrite (idiv_nonneg (i mod (s1 * (s2 * s3)))) by lia.
  rewrite idiv_rem_nonneg, idiv_nonneg by lia.
  reflexivity.
Qed.

(** Quotient and remainder by a stride stay within the extents. *)
Lemma div_mod_range :
  forall i n m,
    0 < m -> 0 <= i < n * m -> 0 <= i / m < n /\ 0 <= i mod m < m.
Proof.
  intros i n m Hm Hi. split.
  - split; [apply Z.div_pos; lia |].
    apply Z.div_lt_upper_bound; lia.
  - apply Z.mod_pos_bound. exact Hm.
Qed.

Lemma div_mod_recompose :
  forall i m, 0 < m -> i / m * m + i mod m = i.
Proof.
  intros i m Hm. pose proof (Z.div_mod i m). lia.
Qed.

(** Property X1.  The flat sampler and the rank-1 sampler, on any of their
    four paths,
    sample an in-range index [index] at the centre of the texel of row
    [index / tC] and column [index mod tC]; that texel lies inside the
    texture, and scaling the coordinate back by the shape of the texture
    gives the same texel. *)
Theorem flat_samplers_address_texel :
  forall (tR tC index : Z),
    0 < tR -> 0 < tC -> 0 <= index < tR * tC ->
    getSamplerFlat (tR, tC) index
    = texelCenter tR tC (index / tC, index mod tC) /\
    getSampler1D (tR, tC) index
    = texelCenter tR tC (index / tC, index mod tC) /\
    (0 <= index / tC < tR /\ 0 <= index mod tC < tC) /\
    resTexRC (tR, tC) (getSamplerFlat (tR, tC) index)
    = (index / tC, index mod tC).
Proof.
  intros tR tC index HtR HtC Hi.
  assert (Hrange : 0 <= index / tC < tR /\ 0 <= index mod tC < tC)
    by (apply div_mod_range; lia).
  rewrite getSamplerFlat_generic, getSampler1D_generic by assumption.
  rewrite UVfrom1D_texel by lia.
  repeat split; try lia.
  apply resTexRC_center; lia.
Qed.

(** Property X2.  For coordinates within a rank-2 shape kept in a texture
    that holds it,
    the rank-2 sampler, on any of its six paths, samples where the flat
    sampler does for the row-major index [row * numC + col]. *)
Theorem getSampler2D_reads_flat_index :
  forall (s0 s1 tR tC row col : Z),
    0 < tR -> 0 < tC ->
    0 <= row < s0 -> 0 <= col < s1 -> s0 * s1 <= tR * tC ->
    getSampler2D (s0, s1) (tR, tC) row col
    = getSamplerFlat (tR, tC) (row * s1 + col).
Proof.
  intros s0 s1 tR tC row col HtR HtC Hrow Hcol Hfit.
  pose proof (mac_bound row s0 col s1 Hrow Hcol) as Hidx.
  rewrite getSampler2D_generic by assumption.
  rewrite getSamplerFlat_generic by lia.
  reflexivity.
Qed.

(** Property X3.  For coordinates within a shape of rank 3 or 4 kept in a
    texture that holds it, the sampler of that rank, on its fast path as on its generic
    path, samples where the flat sampler does for the row-major index of
    the coordinates. *)
Theorem getSampler3D4D_read_flat_index :
  (forall (s0 s1 s2 tR tC row col depth : Z),
      0 < tR -> 0 < tC ->
      0 <= row < s0 -> 0 <= col < s1 -> 0 <= depth < s2 ->
      s0 * (s1 * s2) <= tR * tC ->
      Glsl.getSampler3D (s0, s1, s2) (tR, tC) row col depth
      = getSamplerFlat (tR, tC) (row * (s1 * s2) + col * s2 + depth))
  /\
  (forall (s0 s1 s2 s3 tR tC row col depth depth2 : Z),
      0 < tR -> 0 < tC ->
      0 <= row < s0 -> 0 <= col < s1 -> 0 <= depth < s2 ->
      0 <= depth2 < s3 ->
      s0 * (s1 * (s2 * s3)) <= tR * tC ->
      Glsl.getSampler4D (s0, s1, s2, s3) (tR, tC) row col depth depth2
      = getSamplerFlat (tR, tC)
          (row * (s1 * (s2 * s3)) + col * (s2 * s3) + depth * s3 + depth2)).
Proof.
  split.
  - intros s0 s1 s2 tR tC row col depth HtR HtC Hrow Hcol Hdepth Hfit.
    pose proof (mac_bound col s1 depth s2 Hcol Hdepth) as Hin.
    pose proof (mac_bound row s0 (col * s2 + depth) (s1 * s2) Hrow Hin)
      as Hidx.
    rewrite (getSampler3D_generic s0 s1 s2 tR tC) by assumption.
    unfold index3D.
    rewrite getSamplerFlat_generic by lia.
    reflexivity.
  - intros s0 s1 s2 s3 tR tC row col depth depth2 HtR HtC Hrow Hcol Hdepth
      Hdepth2 Hfit.
    pose proof (mac_bound depth s2 depth2 s3 Hdepth Hdepth2) as Hlow.
    pose proof (mac_bound col s1 (depth * s3 + depth2) (s2 * s3) Hcol Hlow)
      as Hin.
    pose proof (mac_bound row s0 (col * (s2 * s3) + (depth * s3 + depth2))
                  (s1 * (s2 * s3)) Hrow Hin) as Hidx.
    rewrite (getSampler4D_generic s0 s1 s2 s3 tR tC) by assumption.
    unfold index4D.
    rewrite getSamplerFlat_generic by lia.
    reflexivity.
Qed.

(** Property X4.  For the fragment of flat index [i] of an output whose
    texture holds its shape, [getOutputCoords] returns, on every path of every rank, the
    row-major coordinates of [i] (quotients and remainders by the strides),
    and each coordinate lies within its dimension. *)
Theorem getOutputCoords_row_major :
  forall (tR tC i : Z),
    0 < tR -> 0 < tC -> 0 <= i ->
    (forall s0,
        i < s0 -> s0 <= tR * tC ->
        getOutput1DCoords s0 (tR, tC) (fragmentOfIndex (tR, tC) i) = i)
    /\
    (forall s0 s1,
        0 < s1 -> i < s0 * s1 -> s0 * s1 <= tR * tC ->
        getOutput2DCoords (s0, s1) (tR, tC) (fragmentOfIndex (tR, tC) i)
        = (i / s1, i mod s1) /\
        0 <= i / s1 < s0 /\ 0 <= i mod s1 < s1)
    /\
    (forall s0 s1 s2,
        0 < s1 -> 0 < s2 -> i < s0 * (s1 * s2) ->
        getOutput3DCoords (s0, s1, s2) (tR, tC) (fragmentOfIndex (tR, tC) i)
        = (i / (s1 * s2), i mod (s1 * s2) / s2, (i mod (s1 * s2)) mod s2) /\
        0 <= i / (s1 * s2) < s0 /\
        0 <= i mod (s1 * s2) / s2 < s1 /\
        0 <= (i mod (s1 * s2)) mod s2 < s2)
    /\
    (forall s0 s1 s2 s3,
        0 < s1 -> 0 < s2 -> 0 < s3 -> i < s0 * (s1 * (s2 * s3)) ->
        getOutput4DCoords (s0, s1, s2, s3) (tR, tC)
          (fragmentOfIndex (tR, tC) i)
        = (i / (s1 * (s2 * s3)),
           i mod (s1 * (s2 * s3)) / (s2 * s3),
           (i mod (s1 * (s2 * s3))) mod (s2 * s3) / s3,
           ((i mod (s1 * (s2 * s3))) mod (s2 * s3)) mod s3) /\
        0 <= i / (s1 * (s2 * s3)) < s0 /\
        0 <= i mod (s1 * (s2 * s3)) / (s2 * s3) < s1 /\
        0 <= (i mod (s1 * (s2 * s3))) mod (s2 * s3) / s3 < s2 /\
        0 <= ((i mod (s1 * (s2 * s3))) mod (s2 * s3)) mod s3 < s3).
Proof.
  intros tR tC i HtR HtC Hi. repeat apply conj.
  - intros s0 Hlt Hfit. apply getOutput1DCoords_spec; lia.
  - intros s0 s1 Hs1 Hlt Hfit.
    split; [apply getOutput2DCoords_spec; lia |].
    apply div_mod_range; lia.
  - intros s0 s1 s2 Hs1 Hs2 Hlt.
    split; [apply getOutput3DCoords_spec; lia |].
    assert (Hst : 0 < s1 * s2) by nia.
    destruct (div_mod_range i s0 (s1 * s2) Hst) as [Hr Hrest]; [lia |].
    destruct (div_mod_range (i mod (s1 * s2)) s1 s2 Hs2) as [Hc Hd];
      [lia |].
    repeat split; lia.
  - intros s0 s1 s2 s3 Hs1 Hs2 Hs3 Hlt.
    split; [apply getOutput4DCoords_spec; lia |].
    assert (Hst1 : 0 < s2 * s3) by nia.
    assert (Hst0 : 0 < s1 * (s2 * s3)) by nia.
    destruct (div_mod_range i s0 (s1 * (s2 * s3)) Hst0) as [Hr Hrest];
      [lia |].
    destruct (div_mod_range (i mod (s1 * (s2 * s3))) s1 (s2 * s3) Hst1)
      as [Hc Hrest']; [lia |].
    destruct (div_mod_range ((i mod (s1 * (s2 * s3))) mod (s2 * s3)) s2 s3
                Hs3) as [Hd Hd2]; [lia |].
    repeat split; lia.
Qed.

(** Property X5.  [getOutputCoords] inverts the stride law: at the fragment
    whose flat index is the row-major index of coordinates within the
    shape, it returns those coordinates. *)
Theorem getOutputCoords_of_flat_index :
  forall (tR tC : Z),
    0 < tR -> 0 < tC ->
    (forall s0 s1 row col,
        0 <= row < s0 -> 0 <= col < s1 -> s0 * s1 <= tR * tC ->
        getOutput2DCoords (s0, s1) (tR, tC)
          (fragmentOfIndex (tR, tC) (index2D s1 row col))
        = (row, col))
    /\
    (forall s0 s1 s2 row col depth,
        0 <= row < s0 -> 0 <= col < s1 -> 0 <= depth < s2 ->
        getOutput3DCoords (s0, s1, s2) (tR, tC)
          (fragmentOfIndex (tR, tC) (index3D (s1 * s2) s2 row col depth))
        = (row, col, depth))
    /\
    (forall s0 s1 s2 s3 row col depth depth2,
        0 <= row < s0 -> 0 <= col < s1 -> 0 <= depth < s2 ->
        0 <= depth2 < s3 ->
        getOutput4DCoords (s0, s1, s2, s3) (tR, tC)
          (fragmentOfIndex (tR, tC)
             (index4D (s1 * (s2 * s3)) (s2 * s3) s3 row col depth depth2))
        = (row, col, depth, depth2)).
Proof.
  intros tR tC HtR HtC. repeat apply conj.
  - intros s0 s1 row col Hrow Hcol Hfit.
    pose proof (mac_bound row s0 col s1 Hrow Hcol) as Hidx.
    unfold index2D.
    rewrite getOutput2DCoords_spec by lia.
    destruct (div_mod_mac row col s1 Hcol) as [-> ->]. reflexivity.
  - intros s0 s1 s2 row col depth Hrow Hcol Hdepth.
    pose proof (mac_bound col s1 depth s2 Hcol Hdepth) as Hin.
    pose proof (mac_bound row s0 (col * s2 + depth) (s1 * s2) Hrow Hin)
      as Hidx.
    unfold index3D.
    replace (row * (s1 * s2) + col * s2 + depth)
      with (row * (s1 * s2) + (col * s2 + depth)) by lia.
    rewrite getOutput3DCoords_spec by lia.
    destruct (div_mod_mac row (col * s2 + depth) (s1 * s2) Hin) as [-> ->].
    destruct (div_mod_mac col depth s2 Hdepth) as [-> ->]. reflexivity.
  - intros s0 s1 s2 s3 row col depth depth2 Hrow Hcol Hdepth Hdepth2.
    pose proof (mac_bound depth s2 depth2 s3 Hdepth Hdepth2) as Hlow.
    pose proof (mac_bound col s1 (depth * s3 + depth2) (s2 * s3) Hcol Hlow)
      as Hin.
    pose proof (mac_bound row s0 (col * (s2 * s3) + (depth * s3 + depth2))
                  (s1 * (s2 * s3)) Hrow Hin) as Hidx.
    unfold index4D.
    replace (row * (s1 * (s2 * s3)) + col * (s2 * s3) + depth * s3 + depth2)
      with (row * (s1 * (s2 * s3))
            + (col * (s2 * s3) + (depth * s3 + depth2))) by lia.
    rewrite getOutput4DCoords_spec by lia.
    destruct (div_mod_mac row (col * (s2 * s3) + (depth * s3 + depth2))
                (s1 * (s2 * s3)) Hin) as [-> ->].
    destruct (div_mod_mac col (depth * s3 + depth2) (s2 * s3) Hlow)
      as [-> ->].
    destruct (div_mod_mac depth depth2 s3 Hdepth2) as [-> ->]. reflexivity.
Qed.

(** Property X6.  For an input that has the logical shape and the texture
    shape of the output (ranks 1 to 4, positive dimensions, texture holding the shape),
    calling the random-access sampler with the coordinates that
    [getOutputCoords] returns samples the input at the centre of the current
    fragment, for every fragment that holds an element: it reads what the
    accessor at the output coordinates reads with [resultUV]. *)
Theorem sample_at_decoded_coords :
  forall (shape : list Z) (texShape : Z * Z) (i : Z),
    (1 <= List.length shape <= 4)%nat ->
    Forall (fun s => 0 < s) shape ->
    0 < fst texShape -> 0 < snd texShape ->
    sizeFromShape shape <= fst texShape * snd texShape ->
    0 <= i < sizeFromShape shape ->
    sampleAtDecoded shape texShape (fragmentOfIndex texShape i)
    = Some (fragmentOfIndex texShape i) /\
    Glsl.getSamplerAtOutputCoords texShape texShape false
      (fragmentOfIndex texShape i)
    = fragmentOfIndex texShape i.
Proof.
  intros shape [tR tC] i Hrank Hpos HtR HtC Hfit Hi. cbn [fst snd] in *.
  assert (Hfrag : fragmentOfIndex (tR, tC) i = UVfrom1D tR tC i)
    by (rewrite UVfrom1D_texel by lia; reflexivity).
  split.
  2:{ unfold Glsl.getSamplerAtOutputCoords.
      assert (E : arraysEqual (arrayOfPair (tR, tC)) (arrayOfPair (tR, tC))
                  = true) by (apply arraysEqual_pair; reflexivity).
      rewrite E. reflexivity. }
  destruct shape as [|s0 [|s1 [|s2 [|s3 [|s4 rest]]]]];
    cbn [List.length] in Hrank; try lia;
    unfold sizeFromShape in Hfit, Hi; cbn [fold_left] in Hfit, Hi;
    unfold sampleAtDecoded.
  - (* rank 1 *)
    rewrite getOutput1DCoords_spec by lia.
    rewrite getSampler1D_generic by lia.
    rewrite Hfrag. reflexivity.
  - (* rank 2 *)
    inversion Hpos as [|? ? Hs0 Hpos1]; subst.
    inversion Hpos1 as [|? ? Hs1 _]; subst.
    rewrite getOutput2DCoords_spec by lia.
    destruct (div_mod_range i s0 s1 Hs1) as [Hr Hc]; [lia |].
    rewrite getSampler2D_generic by lia.
    unfold index2D. rewrite div_mod_recompose by lia.
    rewrite Hfrag. reflexivity.
  - (* rank 3 *)
    inversion Hpos as [|? ? Hs0 Hpos1]; subst.
    inversion Hpos1 as [|? ? Hs1 Hpos2]; subst.
    inversion Hpos2 as [|? ? Hs2 _]; subst.
    assert (Hst : 0 < s1 * s2) by nia.
    rewrite getOutput3DCoords_spec by lia.
    destruct (div_mod_range i s0 (s1 * s2) Hst) as [Hr Hrest]; [lia |].
    destruct (div_mod_range (i mod (s1 * s2)) s1 s2 Hs2) as [Hc Hd];
      [lia |].
    rewrite (getSampler3D_generic s0 s1 s2 tR tC) by assumption.
    unfold index3D. rewrite <- Z.add_assoc.
    rewrite (div_mod_recompose (i mod (s1 * s2)) s2) by lia.
    rewrite div_mod_recompose by lia.
    rewrite Hfrag. reflexivity.
  - (* rank 4 *)
    inversion Hpos as [|? ? Hs0 Hpos1]; subst.
    inversion Hpos1 as [|? ? Hs1 Hpos2]; subst.
    inversion Hpos2 as [|? ? Hs2 Hpos3]; subst.
    inversion Hpos3 as [|? ? Hs3 _]; subst.
    assert (Hst1 : 0 < s2 * s3) by nia.
    assert (Hst0 : 0 < s1 * (s2 * s3)) by nia.
    rewrite getOutput4DCoords_spec by lia.
    destruct (div_mod_range i s0 (s1 * (s2 * s3)) Hst0) as [Hr Hrest];
      [lia |].
    destruct (div_mod_range (i mod (s1 * (s2 * s3))) s1 (s2 * s3) Hst1)
      as [Hc Hrest']; [lia |].
    destruct (div_mod_range ((i mod (s1 * (s2 * s3))) mod (s2 * s3)) s2 s3
                Hs3) as [Hd Hd2]; [lia |].
    rewrite (getSampler4D_generic s0 s1 s2 s3 tR tC) by assumption.
    unfold index4D. rewrite <- !Z.add_assoc.
    rewrite (div_mod_recompose
               ((i mod (s1 * (s2 * s3))) mod (s2 * s3)) s3) by lia.
    rewrite (div_mod_recompose (i mod (s1 * (s2 * s3))) (s2 * s3)) by lia.
    rewrite div_mod_recompose by lia.
    rewrite Hfrag. reflexivity.
Qed.

(** Property X7.  On both of its paths and for either value of the
    broadcast flag, the
    accessor at the output coordinates samples where the flat sampler of the
    input does: for the flat index of the current fragment when the flag is
    off and that index is an index of the input texture, and for that index
    modulo the size of the input texture when the flag is on. *)
Theorem at_output_coords_reads_flat_index :
  forall (inTexShape outTexShape : Z * Z) (broadcast : bool) (texR texC : Z),
    0 < fst inTexShape -> 0 < snd inTexShape ->
    0 <= texR < fst outTexShape -> 0 <= texC < snd outTexShape ->
    (broadcast = false ->
     texR * snd outTexShape + texC < fst inTexShape * snd inTexShape) ->
    Glsl.getSamplerAtOutputCoords inTexShape outTexShape broadcast
      (texelCenter (fst outTexShape) (snd outTexShape) (texR, texC))
    = getSamplerFlat inTexShape
        (if broadcast
         then (texR * snd outTexShape + texC)
              mod (fst inTexShape * snd inTexShape)
         else texR * snd outTexShape + texC).
Proof.
  intros [inR inC] [outR outC] broadcast texR texC HinR HinC HtexR HtexC
    Hsmall.
  cbn [fst snd] in *.
  assert (Hsize : 0 < inR * inC) by nia.
  assert (Hindex : 0 <= texR * outC + texC) by nia.
  pose proof (Z.mod_pos_bound (texR * outC + texC) (inR * inC) Hsize) as Hred.
  unfold Glsl.getSamplerAtOutputCoords.
  destruct (arraysEqual _ _) eqn:Eq.
  - apply arraysEqual_pair in Eq. inversion Eq; subst.
    assert (Hlt : texR * outC + texC < outR * outC) by nia.
    replace (if broadcast
             then (texR * outC + texC) mod (outR * outC)
             else texR * outC + texC)
      with (texR * outC + texC)
      by (destruct broadcast; [rewrite Z.mod_small by lia |]; reflexivity).
    rewrite getSamplerFlat_generic by lia.
    rewrite UVfrom1D_texel by lia.
    destruct (div_mod_mac texR texC outC HtexC) as [-> ->]. reflexivity.
  - rewrite resTexRC_center by lia.
    rewrite sizeFromShape_pair. cbn [fst snd].
    destruct broadcast.
    + rewrite (idiv_rem_nonneg (texR * outC + texC)) by lia.
      rewrite getSamplerFlat_generic by lia. reflexivity.
    + specialize (Hsmall eq_refl).
      rewrite getSamplerFlat_generic by lia. reflexivity.
Qed.

(** ** Further properties of the codec of unsigned-byte textures *)

Section ByteCodecGrid.

Variables FLOAT_MIN FLOAT_MAX BYTE_NAN_VALUE : Z.
Hypothesis bounds_ordered : FLOAT_MIN < FLOAT_MAX.

Local Abbreviation minV := (minValue FLOAT_MIN).
Local Abbreviation maxV := (maxValue FLOAT_MAX).
Local Abbreviation encode := (setOutput FLOAT_MIN FLOAT_MAX BYTE_NAN_VALUE).
Local Abbreviation codec :=
  (decodeEncode FLOAT_MIN FLOAT_MAX BYTE_NAN_VALUE).
Local Abbreviation q := (quantum FLOAT_MIN FLOAT_MAX).
Local Abbreviation a_of := (normalised FLOAT_MIN FLOAT_MAX).

(** The number of quantization steps below a value. *)
Lemma steps_nonneg :
  forall v, (minV <= v)%Q -> 0 <= Qfloor ((v - minV) / q).
Proof.
  intros v Hlo. pose proof (quantum_pos FLOAT_MIN FLOAT_MAX bounds_ordered).
  assert (E : (0 <= (v - minV) / q)%Q).
  { apply Qle_shift_div_l; [assumption | lra]. }
  apply Qfloor_resp_le in E. exact E.
Qed.

(** The decoder returns the lower bound plus a whole number of
    quantization steps: the steps below the encoded value. *)
Lemma decodeEncode_floor :
  forall v,
    (minV <= v)%Q ->
    isNanPattern BYTE_NAN_VALUE (encode (Num v)) = false ->
    exists r : Q,
      codec (Num v) = Num r /\
      (r == minV + inject_Z (Qfloor ((v - minV) / q)) * q)%Q.
Proof.
  intros v Hlo Hnot.
  pose proof (width_pos FLOAT_MIN FLOAT_MAX bounds_ordered) as Hw.
  pose proof (quantum_pos FLOAT_MIN FLOAT_MAX bounds_ordered) as Hq.
  destruct (setOutput_digits FLOAT_MIN FLOAT_MAX BYTE_NAN_VALUE v)
    as [k0 [k1 [k2 [k3 [rest [Henc [E0 [E1 [E2 [E3 [Hrest Hr]]]]]]]]]]].
  unfold decodeEncode, sample, texture2D.
  unfold isNanPattern in Hnot. rewrite Hnot.
  eexists. split; [reflexivity |].
  rewrite Henc. unfold map4.
  assert (R0 : floor (k0 / 255 * 255 + (1 # 2))%Q = k0)
    by (rewrite E0 at 1; rewrite floor_restore; symmetry; exact E0).
  assert (R1 : floor (k1 / 255 * 255 + (1 # 2))%Q = k1)
    by (rewrite E1 at 1; rewrite floor_restore; symmetry; exact E1).
  assert (R2 : floor (k2 / 255 * 255 + (1 # 2))%Q = k2)
    by (rewrite E2 at 1; rewrite floor_restore; symmetry; exact E2).
  assert (R3 : floor (k3 / 255 * 255 + (1 # 2))%Q = k3)
    by (rewrite E3 at 1; rewrite floor_restore; symmetry; exact E3).
  rewrite R0, R1, R2, R3. clear R0 R1 R2 R3 Henc Hnot.
  (* the digits are integers *)
  unfold floor in E0, E1, E2, E3.
  set (n0 := Qfloor (a_of v)) in *.
  set (n1 := Qfloor ((a_of v - k0) * 255)%Q) in *.
  set (n2 := Qfloor (((a_of v - k0) * 255 - k1) * 255)%Q) in *.
  set (n3 := Qfloor ((((a_of v - k0) * 255 - k1) * 255 - k2) * 255)%Q) in *.
  clearbody n0 n1 n2 n3. subst k0 k1 k2 k3.
  set (K := n0 * (255 * 255 * 255) + n1 * (255 * 255) + n2 * 255 + n3).
  assert (EK : (inject_Z K
                == inject_Z n0 * (255 * 255 * 255)
                   + inject_Z n1 * (255 * 255) + inject_Z n2 * 255
                   + inject_Z n3)%Q).
  { unfold K. rewrite !inject_Z_plus, !inject_Z_mult. reflexivity. }
  assert (Esteps : ((v - minV) / q == inject_Z K + rest)%Q).
  { rewrite EK, Hrest.
    unfold normalised, quantum, dot2, recipRange, range.
    cbn [fst snd]. field. lra. }
  assert (HK : Qfloor ((v - minV) / q) = K).
  { assert (K <= Qfloor ((v - minV) / q) < K + 1); [| lia].
    apply Qfloor_between; rewrite Esteps, ?inject_Z_plus;
      change (inject_Z 1) with 1%Q; lra. }
  rewrite HK, EK.
  unfold quantum, dot2, dot4, floatDeltas, dotRange, range.
  cbn [fst snd]. field.
Qed.

Lemma not_nanPattern :
  forall v,
    (minV <= v)%Q ->
    BYTE_NAN_VALUE <> 0 \/ (q <= v - minV)%Q ->
    isNanPattern BYTE_NAN_VALUE (encode (Num v)) = false.
Proof.
  intros v Hlo Hcase.
  destruct (isNanPattern BYTE_NAN_VALUE (encode (Num v))) eqn:E;
    [| reflexivity].
  apply (setOutput_nanPattern_iff FLOAT_MIN FLOAT_MAX BYTE_NAN_VALUE
           bounds_ordered v Hlo) in E.
  destruct E as [Hz Hsmall]. destruct Hcase as [Hnz | Hbig];
    [contradiction | lra].
Qed.

End ByteCodecGrid.

(** Property X8.  The value that [sample] returns for the texel that
    [setOutput] wrote
    for an in-range value [v] is the largest point of the grid
    [MIN + n * (MAX - MIN) / 255^4], [n] a natural number, that is not
    above [v]; it lies between [MIN] and [v].  (The values that are encoded
    as the pattern of not-a-number are set aside.) *)
Theorem decodeEncode_quantizes :
  forall (FLOAT_MIN FLOAT_MAX BYTE_NAN_VALUE : Z) (v : Q),
    FLOAT_MIN < FLOAT_MAX ->
    (minValue FLOAT_MIN <= v /\ v <= maxValue FLOAT_MAX)%Q ->
    BYTE_NAN_VALUE <> 0 \/
    (quantum FLOAT_MIN FLOAT_MAX <= v - minValue FLOAT_MIN)%Q ->
    exists r : Q,
      decodeEncode FLOAT_MIN FLOAT_MAX BYTE_NAN_VALUE (Num v) = Num r /\
      (r == minValue FLOAT_MIN
            + inject_Z (Qfloor ((v - minValue FLOAT_MIN)
                                / quantum FLOAT_MIN FLOAT_MAX))
              * quantum FLOAT_MIN FLOAT_MAX)%Q /\
      0 <= Qfloor ((v - minValue FLOAT_MIN) / quantum FLOAT_MIN FLOAT_MAX) /\
      (minValue FLOAT_MIN <= r /\ r <= v)%Q.
Proof.
  intros fmin fmax nan v Hb [Hlo Hhi] Hcase.
  pose proof (quantum_pos fmin fmax Hb) as Hq.
  pose proof (steps_nonneg fmin fmax Hb v Hlo) as Hn.
  destruct (decodeEncode_floor fmin fmax nan Hb v Hlo
              (not_nanPattern fmin fmax nan Hb v Hlo Hcase)) as [r [Hr Er]].
  exists r. split; [exact Hr |]. split; [exact Er |]. split; [exact Hn |].
  pose proof (Qfloor_le ((v - minValue fmin) / quantum fmin fmax)) as Hle.
  assert (Hn' : (0 <= inject_Z (Qfloor ((v - minValue fmin)
                                        / quantum fmin fmax)))%Q)
    by (change 0%Q with (inject_Z 0); rewrite <- Zle_Qle; exact Hn).
  assert (Hsteps : (inject_Z (Qfloor ((v - minValue fmin)
                                      / quantum fmin fmax))
                    * quantum fmin fmax <= v - minValue fmin)%Q).
  { assert (Ediv : ((v - minValue fmin) / quantum fmin fmax
                    * quantum fmin fmax == v - minValue fmin)%Q)
      by (field; lra).
    rewrite <- Ediv at 2. apply Qmult_le_compat_r; [exact Hle | lra]. }
  rewrite Er. split; nra.
Qed.

(** Property X9.  The codec is monotone: of two in-range values, the
    smaller one does not decode to a larger number. *)
Theorem decodeEncode_monotone :
  forall (FLOAT_MIN FLOAT_MAX BYTE_NAN_VALUE : Z) (v w : Q),
    FLOAT_MIN < FLOAT_MAX ->
    (minValue FLOAT_MIN <= v /\ v <= w /\ w <= maxValue FLOAT_MAX)%Q ->
    BYTE_NAN_VALUE <> 0 \/
    (quantum FLOAT_MIN FLOAT_MAX <= v - minValue FLOAT_MIN)%Q ->
    exists rv rw : Q,
      decodeEncode FLOAT_MIN FLOAT_MAX BYTE_NAN_VALUE (Num v) = Num rv /\
      decodeEncode FLOAT_MIN FLOAT_MAX BYTE_NAN_VALUE (Num w) = Num rw /\
      (rv <= rw)%Q.
Proof.
  intros fmin fmax nan v w Hb [Hlo [Hvw Hhi]] Hcase.
  pose proof (quantum_pos fmin fmax Hb) as Hq.
  assert (Hlow : (minValue fmin <= w)%Q) by lra.
  assert (Hcasew : nan <> 0 \/ (quantum fmin fmax <= w - minValue fmin)%Q)
    by (destruct Hcase; [left; assumption | right; lra]).
  destruct (decodeEncode_floor fmin fmax nan Hb v Hlo
              (not_nanPattern fmin fmax nan Hb v Hlo Hcase)) as [rv [Hrv Ev]].
  destruct (decodeEncode_floor fmin fmax nan Hb w Hlow
              (not_nanPattern fmin fmax nan Hb w Hlow Hcasew))
    as [rw [Hrw Ew]].
  exists rv, rw. split; [exact Hrv |]. split; [exact Hrw |].
  assert (Hdiv : ((v - minValue fmin) / quantum fmin fmax
                  <= (w - minValue fmin) / quantum fmin fmax)%Q).
  { apply Qmult_le_compat_r; [lra |].
    apply Qlt_le_weak. apply Qinv_lt_0_compat. exact Hq. }
  apply Qfloor_resp_le in Hdiv. rewrite Zle_Qle in Hdiv.
  rewrite Ev, Ew. nra.
Qed.

(** Property X11.  The channels that [setOutput] writes for an in-range
    number are bytes over 255 (the first at most 255, the others at most
    254): each lies in [0, 1], and a texture of unsigned bytes holds it as
    it is. *)
Theorem setOutput_channels_are_bytes :
  forall (FLOAT_MIN FLOAT_MAX BYTE_NAN_VALUE : Z) (v : Q),
    FLOAT_MIN < FLOAT_MAX ->
    (minValue FLOAT_MIN <= v /\ v <= maxValue FLOAT_MAX)%Q ->
    exists n0 n1 n2 n3 : Z,
      (0 <= n0 <= 255 /\ 0 <= n1 <= 254 /\ 0 <= n2 <= 254 /\ 0 <= n3 <= 254)
      /\
      setOutput FLOAT_MIN FLOAT_MAX BYTE_NAN_VALUE (Num v)
      = ((inject_Z n0 / 255)%Q, (inject_Z n1 / 255)%Q,
         (inject_Z n2 / 255)%Q, (inject_Z n3 / 255)%Q).
Proof.
  intros fmin fmax nan v Hb Hv.
  apply setOutput_bytes; assumption.
Qed.

(** ** Which rank error is raised *)

(** Property X13.  The rank error names the first input of the list whose
    rank is not supported, whatever the later inputs and the output are;
    the error of the output is raised when every input has a supported
    rank and the output has not. *)
Theorem makeShader_error_precedence :
  forall (floatTextures : bool) (FLOAT_MIN FLOAT_MAX BYTE_NAN_VALUE : Z)
         (out : ShapeInfo) (userCode : string) (broadcast : bool),
    (forall (good : list InputInfo) (x : InputInfo) (rest : list InputInfo),
        Forall (fun y => supportedRank (shapeInfo y)) good ->
        (4 < rank (shapeInfo x))%nat ->
        makeShader floatTextures FLOAT_MIN FLOAT_MAX BYTE_NAN_VALUE
          (good ++ x :: rest)%list out userCode broadcast
        = Throw (inputRankError (rank (shapeInfo x))))
    /\
    (forall inputs : list InputInfo,
        Forall (fun y => supportedRank (shapeInfo y)) inputs ->
        (4 < rank out)%nat ->
        makeShader floatTextures FLOAT_MIN FLOAT_MAX BYTE_NAN_VALUE
          inputs out userCode broadcast
        = Throw (outputRankError (rank out))).
Proof.
  intros ft fmin fmax nan out userCode broadcast. split.
  - intros good x rest Hgood Hbad.
    assert (Hmap :
             mapM (fun y => getInputSamplingSnippet y out broadcast)
               (good ++ x :: rest)%list
             = Throw (inputRankError (rank (shapeInfo x)))).
    { induction Hgood as [|y good Hy _ IH]; cbn [app mapM].
      - rewrite (getInputSamplingSnippet_unsupported x out broadcast Hbad).
        reflexivity.
      - destruct (getInputSamplingSnippet_supported y out broadcast Hy)
          as [s Hs].
        rewrite Hs, IH. reflexivity. }
    unfold makeShader. rewrite Hmap. reflexivity.
  - intros inputs Hall Hbad.
    destruct (mapM_inputs_supported out broadcast inputs Hall) as [ss Hss].
    unfold makeShader. rewrite Hss. cbn [bind].
    rewrite (getOutputSamplingSnippet_unsupported out Hbad). reflexivity.
Qed.

(** ** Instances of the further properties *)

Lemma flat_samplers_address_texel_witness :
  getSamplerFlat (2, 3) 4 = texelCenter 2 3 (4 / 3, 4 mod 3) /\
  getSampler1D (2, 3) 4 = texelCenter 2 3 (4 / 3, 4 mod 3) /\
  (0 <= 4 / 3 < 2 /\ 0 <= 4 mod 3 < 3) /\
  resTexRC (2, 3) (getSamplerFlat (2, 3) 4) = (4 / 3, 4 mod 3).
Proof.
  apply (flat_samplers_address_texel 2 3 4); lia.
Defined.

Lemma getSampler2D_reads_flat_index_witness :
  getSampler2D (3, 4) (1, 12) 2 3 = getSamplerFlat (1, 12) (2 * 4 + 3).
Proof.
  apply (getSampler2D_reads_flat_index 3 4 1 12 2 3); lia.
Defined.

Lemma getSampler3D4D_read_flat_index_witness :
  Glsl.getSampler3D (2, 3, 4) (2, 12) 1 2 3
  = getSamplerFlat (2, 12) (1 * (3 * 4) + 2 * 4 + 3) /\
  Glsl.getSampler4D (2, 3, 4, 5) (10, 12) 1 2 3 4
  = getSamplerFlat (10, 12)
      (1 * (3 * (4 * 5)) + 2 * (4 * 5) + 3 * 5 + 4).
Proof.
  split.
  - apply (proj1 getSampler3D4D_read_flat_index 2 3 4 2 12 1 2 3); lia.
  - apply (proj2 getSampler3D4D_read_flat_index 2 3 4 5 10 12 1 2 3 4); lia.
Defined.

Lemma getOutputCoords_row_major_witness :
  getOutput1DCoords 24 (4, 6) (fragmentOfIndex (4, 6) 17) = 17 /\
  getOutput2DCoords (1, 24) (4, 6) (fragmentOfIndex (4, 6) 17)
  = (17 / 24, 17 mod 24) /\
  getOutput3DCoords (2, 3, 4) (4, 6) (fragmentOfIndex (4, 6) 17)
  = (17 / (3 * 4), 17 mod (3 * 4) / 4, (17 mod (3 * 4)) mod 4) /\
  getOutput4DCoords (2, 3, 2, 2) (4, 6) (fragmentOfIndex (4, 6) 17)
  = (17 / (3 * (2 * 2)),
     17 mod (3 * (2 * 2)) / (2 * 2),
     (17 mod (3 * (2 * 2))) mod (2 * 2) / 2,
     ((17 mod (3 * (2 * 2))) mod (2 * 2)) mod 2).
Proof.
  destruct (getOutputCoords_row_major 4 6 17 ltac:(lia) ltac:(lia) ltac:(lia))
    as [H1 [H2 [H3 H4]]].
  split; [apply H1; lia |].
  split; [apply (H2 1 24); lia |].
  split; [apply (H3 2 3 4); lia |].
  apply (H4 2 3 2 2); lia.
Defined.

Lemma getOutputCoords_of_flat_index_witness :
  getOutput2DCoords (4, 6) (4, 6) (fragmentOfIndex (4, 6) (index2D 6 2 5))
  = (2, 5) /\
  getOutput3DCoords (2, 3, 4) (4, 6)
    (fragmentOfIndex (4, 6) (index3D (3 * 4) 4 1 2 3))
  = (1, 2, 3) /\
  getOutput4DCoords (2, 3, 2, 2) (4, 6)
    (fragmentOfIndex (4, 6) (index4D (3 * (2 * 2)) (2 * 2) 2 1 2 1 1))
  = (1, 2, 1, 1).
Proof.
  destruct (getOutputCoords_of_flat_index 4 6 ltac:(lia) ltac:(lia))
    as [H2 [H3 H4]].
  split; [apply (H2 4 6); lia |].
  split; [apply (H3 2 3 4); lia |].
  apply (H4 2 3 2 2); lia.
Defined.

Lemma sample_at_decoded_coords_witness :
  sampleAtDecoded [2; 3; 4] (2, 12) (fragmentOfIndex (2, 12) 17)
  = Some (fragmentOfIndex (2, 12) 17) /\
  Glsl.getSamplerAtOutputCoords (2, 12) (2, 12) false
    (fragmentOfIndex (2, 12) 17)
  = fragmentOfIndex (2, 12) 17.
Proof.
  apply (sample_at_decoded_coords [2; 3; 4] (2, 12) 17).
  - cbn. lia.
  - repeat constructor.
  - cbn. lia.
  - cbn. lia.
  - cbn. lia.
  - cbn. lia.
Defined.

Lemma at_output_coords_reads_flat_index_witness :
  Glsl.getSamplerAtOutputCoords (1, 3) (2, 3) true (texelCenter 2 3 (1, 1))
  = getSamplerFlat (1, 3) ((1 * 3 + 1) mod (1 * 3)) /\
  Glsl.getSamplerAtOutputCoords (6, 1) (2, 3) false (texelCenter 2 3 (1, 1))
  = getSamplerFlat (6, 1) (1 * 3 + 1).
Proof.
  split.
  - apply (at_output_coords_reads_flat_index (1, 3) (2, 3) true 1 1);
      cbn; lia.
  - apply (at_output_coords_reads_flat_index (6, 1) (2, 3) false 1 1);
      cbn; lia.
Defined.

Lemma decodeEncode_quantizes_witness :
  exists r : Q,
    decodeEncode (-1) 1 0 (Num (1 # 2)) = Num r /\
    (r == minValue (-1)
          + inject_Z (Qfloor (((1 # 2) - minValue (-1)) / quantum (-1) 1))
            * quantum (-1) 1)%Q /\
    0 <= Qfloor (((1 # 2) - minValue (-1)) / quantum (-1) 1) /\
    (minValue (-1) <= r /\ r <= 1 # 2)%Q.
Proof.
  apply (decodeEncode_quantizes (-1) 1 0 (1 # 2)).
  - lia.
  - split; unfold Qle; cbn; lia.
  - right. unfold Qle. cbn. lia.
Defined.

Lemma decodeEncode_monotone_witness :
  exists rv rw : Q,
    decodeEncode (-1) 1 0 (Num (1 # 3)) = Num rv /\
    decodeEncode (-1) 1 0 (Num (1 # 2)) = Num rw /\
    (rv <= rw)%Q.
Proof.
  apply (decodeEncode_monotone (-1) 1 0 (1 # 3) (1 # 2)).
  - lia.
  - repeat split; unfold Qle; cbn; lia.
  - right. unfold Qle. cbn. lia.
Defined.

Lemma setOutput_channels_are_bytes_witness :
  exists n0 n1 n2 n3 : Z,
    (0 <= n0 <= 255 /\ 0 <= n1 <= 254 /\ 0 <= n2 <= 254 /\ 0 <= n3 <= 254)
    /\
    setOutput (-1) 1 0 (Num (1 # 2))
    = ((inject_Z n0 / 255)%Q, (inject_Z n1 / 255)%Q,
       (inject_Z n2 / 255)%Q, (inject_Z n3 / 255)%Q).
Proof.
  apply (setOutput_channels_are_bytes (-1) 1 0).
  - lia.
  - split; unfold Qle; cbn; lia.
Defined.

Lemma makeShader_error_precedence_witness :
  makeShader false (-1) 1 0
    [{| name := "a";
        shapeInfo := {| logicalShape := [2]; texShape := (1, 2);
                        textureChannelPackingFormat := R |} |};
     {| name := "b";
        shapeInfo := {| logicalShape := [1; 1; 1; 1; 2];
                        texShape := (1, 2);
                        textureChannelPackingFormat := R |} |};
     {| name := "c";
        shapeInfo := {| logicalShape := [1; 1; 1; 1; 1; 2];
                        texShape := (1, 2);
                        textureChannelPackingFormat := R |} |}]
    {| logicalShape := [1; 1; 1; 1; 1; 1; 2]; texShape := (1, 2);
       textureChannelPackingFormat := R |}
    "void main() {}" false
  = Throw (inputRankError 5).
Proof.
  apply (proj1 (makeShader_error_precedence false (-1) 1 0
                  {| logicalShape := [1; 1; 1; 1; 1; 1; 2];
                     texShape := (1, 2);
                     textureChannelPackingFormat := R |}
                  "void main() {}" false)
           [{| name := "a";
               shapeInfo := {| logicalShape := [2]; texShape := (1, 2);
                               textureChannelPackingFormat := R |} |}]).
  - constructor; [| constructor]. unfold supportedRank. cbn. lia.
  - unfold rank. cbn. lia.
Defined.
